(** * QuickUMLS spaCy component: match-to-span materialisation

    Shallow embedding of [quickumls/spacy_component.py] (class
    [SpacyQuickUMLS]) together with the parts of spaCy it calls:
    [StringStore.add] / [StringStore.__getitem__], [Doc.char_span],
    [Span._] (the [Underscore] extension attributes, kept in
    [doc.user_data]), [Span.set_extension] and the [Doc.ents] property.

    Python's mutable objects are threaded through a state-and-exception
    monad: a raised exception keeps every mutation done before it. *)

From stdpp Require Import gmap strings list.
From Stdlib Require Import ZArith QArith Lia.
#[local] Set Warnings "-clear-no-such-hyp".
Close Scope Q_scope.
Local Open Scope Z_scope.

(** ** Python exceptions and the effect monad *)

(** The exceptions that the modelled code can raise.  The payload is the
    data that the message is formatted from. *)
Inductive exn : Type :=
| AttributeError_NoneType (attr : string)
    (* NoneType object has no attribute attr *)
| AttributeError_E047 (name : string)
    (* spaCy E047: no value can be assigned to an unregistered extension *)
| ValueError_E090 (name : string)
    (* spaCy E090: extension already exists on Span, force is not set *)
| ValueError_E1010 (i : nat)
    (* spaCy E1010: token i is included in more than one span *)
| IndexError_E035 (start_ end_ length_ : nat)
    (* spaCy E035: error creating span with start/end for doc of length *)
| OverflowError
    (* Python int too large to convert to C int *)
| OtherError (msg : string).
    (* anything raised by the external matching engine's constructor *)

Definition is_ValueError (e : exn) : bool :=
  match e with
  | ValueError_E090 _ | ValueError_E1010 _ => true
  | _ => false
  end.

Inductive result (A : Type) : Type :=
| Ok (a : A)
| Raise (e : exn).
Arguments Ok {A} a.
Arguments Raise {A} e.

Definition is_Ok {A} (r : result A) : bool :=
  match r with Ok _ => true | Raise _ => false end.

Section Monad.
Context {St : Type}.

Definition M (A : Type) : Type := St -> St * result A.

Definition ret {A} (a : A) : M A := fun s => (s, Ok a).
Definition raise {A} (e : exn) : M A := fun s => (s, Raise e).

Definition bind {A B} (c : M A) (k : A -> M B) : M B :=
  fun s =>
    match c s with
    | (s', Ok a) => k a s'
    | (s', Raise e) => (s', Raise e)
    end.

Definition get : M St := fun s => (s, Ok s).
Definition modify (f : St -> St) : M unit := fun s => (f s, Ok tt).

(** [try: body except ValueError as e: handler e].  The handler runs in
    the state the body left behind; other exceptions pass through. *)
Definition try_except_ValueError (body : M unit) (handler : exn -> M unit)
  : M unit :=
  fun s =>
    match body s with
    | (s', Ok tt) => (s', Ok tt)
    | (s', Raise e) =>
        if is_ValueError e then handler e s' else (s', Raise e)
    end.

(** [for x in l: body x]; an exception leaves the loop. *)
Fixpoint for_each {A} (l : list A) (body : A -> M unit) : M unit :=
  match l with
  | [] => ret tt
  | x :: l' => bind (body x) (fun _ => for_each l' body)
  end.
End Monad.
Arguments M : clear implicits.

Notation "x <~ c ;; k" := (bind c (fun x => k))
  (at level 100, c at next level, right associativity).
Notation "c ;;; k" := (bind c (fun _ => k))
  (at level 100, right associativity).

(** ** String hashing: MurmurHash64A

    [StringStore] keys a string by [hash64(utf8, len, seed = 1)], which
    is MurmurHash64A.  Words are 64-bit unsigned integers, written as [Z]
    with the wrap-around explicit. *)
Module Murmur.
Definition m : Z := 0xc6a4a7935bd1e995.
Definition r : Z := 47.
Definition wrap64 (x : Z) : Z := x mod 2 ^ 64.

Definition mul64 (a b : Z) : Z := wrap64 (a * b).

(** [k *= m; k ^= k >> r; k *= m] *)
Definition mix (k : Z) : Z :=
  let k1 := mul64 k m in
  let k2 := Z.lxor k1 (Z.shiftr k1 r) in
  mul64 k2 m.

(** little-endian word of a block of bytes *)
Fixpoint le_word (bs : list Z) : Z :=
  match bs with
  | [] => 0
  | b :: bs' => Z.lor b (Z.shiftl (le_word bs') 8)
  end.

(** the [while (data != end)] loop over whole 8-byte blocks; returns the
    running hash and the unread tail ([len & 7] bytes) *)
Fixpoint blocks (data : list Z) (h : Z) : Z * list Z :=
  match data with
  | b0 :: b1 :: b2 :: b3 :: b4 :: b5 :: b6 :: b7 :: rest =>
      let k := mix (le_word [b0; b1; b2; b3; b4; b5; b6; b7]) in
      blocks rest (mul64 (Z.lxor h k) m)
  | tail => (h, tail)
  end.

(** the [switch (len & 7)] with its fall-through cases *)
Definition tail_bytes (tail : list Z) (h : Z) : Z :=
  match tail with
  | [] => h
  | _ => mul64 (Z.lxor h (le_word tail)) m
  end.

Definition finalize (h : Z) : Z :=
  let h1 := Z.lxor h (Z.shiftr h r) in
  let h2 := mul64 h1 m in
  Z.lxor h2 (Z.shiftr h2 r).

Definition MurmurHash64A (key : list Z) (seed : Z) : Z :=
  let h := Z.lxor seed (mul64 (Z.of_nat (length key)) m) in
  let '(h', tail) := blocks key h in
  finalize (tail_bytes tail h').
End Murmur.

(** The UTF-8 bytes of a string: a Rocq [string] is taken as the encoded
    byte string of the Python [str]. *)
Fixpoint utf8_bytes (s : string) : list Z :=
  match s with
  | EmptyString => []
  | String a s' => Z.of_N (Ascii.N_of_ascii a) :: utf8_bytes s'
  end.

Definition hash_string (s : string) : Z :=
  Murmur.MurmurHash64A (utf8_bytes s) 1.

(** ** [spacy.strings.StringStore]

    The store maps 64-bit keys to the strings that were added.  The id of
    a string is its hash; the empty string has the id 0 and is never
    stored.  (The names of spaCy's built-in symbols, such as NOUN, have
    fixed small ids; concept codes are not among them and the table is
    left out.) *)
Module StringStore.
Abbreviation t := (gmap Z string).

Definition key_of (s : string) : Z :=
  if decide (s = EmptyString) then 0 else hash_string s.

(** [store.add(s)]: returns the key; an occupied key keeps its string. *)
Definition add (s : string) (store : t) : Z * t :=
  let key := key_of s in
  if decide (s = EmptyString) then (key, store)
  else match store !! key with
       | Some _ => (key, store)
       | None => (key, <[key := s]> store)
       end.

(** [store[s]] for a [str]: the key, whether or not it was added. *)
Definition getitem_str (s : string) (store : t) : Z := key_of s.

(** [s in store] *)
Definition contains (s : string) (store : t) : bool :=
  if decide (s = EmptyString) then true
  else bool_decide (is_Some (store !! key_of s)).

(** [store[id]] for an [int]: inverse lookup, [None] stands for the
    [KeyError] of an id that was never added. *)
Definition getitem_int (id : Z) (store : t) : option string :=
  if decide (id = 0) then Some EmptyString else store !! id.
End StringStore.

(** ** Tokens, spans and documents *)

(** A token: character offset of its first character, its length in
    characters, and whether a whitespace character follows it. *)
Record Token : Type := mkToken {
  tok_idx : Z;
  tok_len : Z;
  tok_spacy : bool
}.

Definition tok_end (t : Token) : Z := tok_idx t + tok_len t.

(** A [Span]: the token range from [sp_start] up to, not including,
    [sp_end], and the label id. *)
Record Span : Type := mkSpan {
  sp_start : nat;
  sp_end : nat;
  sp_label : Z
}.

(** Values held by the extension attributes: a Python float, which the
    code stores and reads back but never computes with, written as a
    rational; or a set of strings. *)
Inductive pyval : Type :=
| PyFloat (q : Q)
| PySet (s : gset string).

(** A [Doc].  spaCy stores [doc.ents] as IOB tags on the tokens; [ents] is
    the tuple of entity spans those tags decode to, in token order.
    [user_data] is the dict that holds the values of every [._.]
    attribute, keyed by attribute name and the character offsets of the
    span. *)
Record Doc : Type := mkDoc {
  tokens : list Token;
  ents : list Span;
  user_data : gmap (string * Z * Z) pyval
}.

(** One entry of a match group, the dict that the matching engine
    yields: [start] and [end] as [int(...)] reads them, [cui],
    [similarity] and [semtypes]. *)
Record MatchRecord : Type := mkMatch {
  md_start : Z;
  md_end : Z;
  md_cui : string;
  md_similarity : Q;
  md_semtypes : gset string
}.

(** A line written by [print(e, span, span.start, span.end)]. *)
Record PrintedLine : Type := mkLine {
  ln_exn : exn;
  ln_span : Span;
  ln_start : nat;
  ln_end : nat
}.

(** The objects [SpacyQuickUMLS] reads and mutates:
    - [span_extensions]: [Underscore.span_extensions], class-level and so
      shared by the whole process; name -> default value;
    - [vocab_strings]: [nlp.vocab.strings];
    - [doc]: the document handed to [__call__];
    - [stdout]: the lines printed so far. *)
Record World : Type := mkWorld {
  span_extensions : gmap string pyval;
  vocab_strings : gmap Z string;
  doc : Doc;
  stdout : list PrintedLine
}.

Definition set_span_extensions (f : gmap string pyval -> gmap string pyval)
  (w : World) : World :=
  mkWorld (f (span_extensions w)) (vocab_strings w) (doc w) (stdout w).
Definition set_vocab_strings (v : gmap Z string) (w : World) : World :=
  mkWorld (span_extensions w) v (doc w) (stdout w).
Definition set_doc (d : Doc) (w : World) : World :=
  mkWorld (span_extensions w) (vocab_strings w) d (stdout w).
Definition set_ents (es : list Span) (d : Doc) : Doc :=
  mkDoc (tokens d) es (user_data d).
Definition set_user_data (u : gmap (string * Z * Z) pyval) (d : Doc) : Doc :=
  mkDoc (tokens d) (ents d) u.
Definition write_stdout (l : PrintedLine) (w : World) : World :=
  mkWorld (span_extensions w) (vocab_strings w) (doc w) (stdout w ++ [l]).

(** ** [Doc.char_span] *)

(** [token_by_char]: index of the token whose characters (with its
    trailing whitespace) cover [char_idx].  spaCy searches by bisection;
    on a document, whose tokens are in increasing order, the scan from
    the left finds the same token. *)
Fixpoint token_by_char (toks : list Token) (char_idx : Z) : option nat :=
  match toks with
  | [] => None
  | t :: toks' =>
      if (tok_idx t <=? char_idx)
         && (char_idx <? tok_end t + (if tok_spacy t then 1 else 0))
      then Some 0%nat
      else S <$> token_by_char toks' char_idx
  end.

(** [Span(doc, start, end, label)]: refuses [not (0 <= start <= end <=
    len(doc))]. *)
Definition Span_new (d : Doc) (start_ end_ : nat) (label : Z) : result Span :=
  if (start_ <=? end_)%nat && (end_ <=? length (tokens d))%nat
  then Ok (mkSpan start_ end_ label)
  else Raise (IndexError_E035 start_ end_ (length (tokens d))).

(** The values of a C [int]. *)
Definition c_int (x : Z) : bool := (- 2 ^ 31 <=? x) && (x <? 2 ^ 31).

(** [doc.char_span(start_idx, end_idx, label=label)] in its default
    strict alignment: [None] unless [start_idx] is the first character of
    a token and [end_idx] is one past the last character of a token.
    The two offsets are C [int] parameters: a Python integer that does
    not fit raises [OverflowError] when the call is made. *)
Definition char_span (d : Doc) (start_idx end_idx : Z) (label : Z)
  : result (option Span) :=
  if negb (c_int start_idx && c_int end_idx) then Raise OverflowError else
  match token_by_char (tokens d) start_idx with
  | None => Ok None
  | Some start_ =>
      match tokens d !! start_ with
      | None => Ok None
      | Some t_start =>
          if negb (start_idx =? tok_idx t_start) then Ok None
          else
            (* end_idx is exclusive: look one character before it *)
            match token_by_char (tokens d) (end_idx - 1) with
            | None => Ok None
            | Some end_ =>
                match tokens d !! end_ with
                | None => Ok None
                | Some t_end =>
                    if negb (end_idx =? tok_end t_end) then Ok None
                    else
                      match Span_new d start_ (S end_) label with
                      | Ok sp => Ok (Some sp)
                      | Raise e => Raise e
                      end
                end
            end
      end
  end.

(** [len(doc.text)] *)
Definition text_len (d : Doc) : Z :=
  match last (tokens d) with
  | Some t => tok_end t + (if tok_spacy t then 1 else 0)
  | None => 0
  end.

(** [span.start_char] and [span.end_char] *)
Definition start_char (d : Doc) (sp : Span) : Z :=
  match tokens d !! sp_start sp with
  | Some t => tok_idx t
  | None => text_len d
  end.

Definition end_char (d : Doc) (sp : Span) : Z :=
  if decide (sp_start sp = sp_end sp) then start_char d sp
  else match tokens d !! pred (sp_end sp) with
       | Some t => tok_end t
       | None => 0
       end.

(** ** Extension attributes: [Span.set_extension] and [span._] *)

(** [Span.set_extension(name, default=default)], without [force]. *)
Definition Span_set_extension (name : string) (default : pyval)
  : M World unit :=
  fun w =>
    match span_extensions w !! name with
    | Some _ => (w, Raise (ValueError_E090 name))
    | None => (set_span_extensions (insert name default) w, Ok tt)
    end.

Definition underscore_key (d : Doc) (sp : Span) (name : string)
  : string * Z * Z :=
  (name, start_char d sp, end_char d sp).

(** [span._], where [span] may be [None]: Python raises on [None]. *)
Definition underscore (span : option Span) : M World Span :=
  match span with
  | None => raise (AttributeError_NoneType "_")
  | Some sp => ret sp
  end.

(** [u.name = value] for the [Underscore] object [u] of the span [sp]:
    the value goes into [doc.user_data]. *)
Definition underscore_setattr (sp : Span) (name : string) (value : pyval)
  : M World unit :=
  fun w =>
    match span_extensions w !! name with
    | None => (w, Raise (AttributeError_E047 name))
    | Some _ =>
        let d := doc w in
        let u := <[underscore_key d sp name := value]> (user_data d) in
        (set_doc (set_user_data u d) w, Ok tt)
    end.

(** [span._.name]: the stored value, or the default of the extension;
    [None] stands for the [AttributeError] of an unregistered name. *)
Definition underscore_getattr (w : World) (sp : Span) (name : string)
  : option pyval :=
  match span_extensions w !! name with
  | None => None
  | Some dflt =>
      Some (default dflt
              (user_data (doc w) !! underscore_key (doc w) sp name))
  end.

(** ** The [doc.ents] property *)

(** Marking the tokens of one span as seen: [ValueError] E1010 at the
    first token that an earlier span already covers. *)
Fixpoint claim_tokens (toks : list nat) (seen : gset nat)
  : result (gset nat) :=
  match toks with
  | [] => Ok seen
  | i :: toks' =>
      if decide (i ∈ seen) then Raise (ValueError_E1010 i)
      else claim_tokens toks' ({[i]} ∪ seen)
  end.

Definition span_tokens (sp : Span) : list nat :=
  seq (sp_start sp) (sp_end sp - sp_start sp).

(** The check of [Doc.set_ents]: no token lies in two spans. *)
Fixpoint check_spans (spans : list Span) (seen : gset nat)
  : result (gset nat) :=
  match spans with
  | [] => Ok seen
  | sp :: spans' =>
      match claim_tokens (span_tokens sp) seen with
      | Ok seen' => check_spans spans' seen'
      | Raise e => Raise e
      end
  end.

Fixpoint insert_by_start (sp : Span) (l : list Span) : list Span :=
  match l with
  | [] => [sp]
  | x :: l' =>
      if (sp_start sp <=? sp_start x)%nat then sp :: l
      else x :: insert_by_start sp l'
  end.

Definition is_entity (sp : Span) : bool :=
  (sp_start sp <? sp_end sp)%nat && negb (sp_label sp =? 0).

(** What the IOB tags written for [spans] decode to: the spans in token
    order.  An empty span tags no token, and a span with label 0 is no
    entity. *)
Definition decode_ents (spans : list Span) : list Span :=
  foldr insert_by_start [] (filter (fun sp => is_entity sp = true) spans).

(** Each element handed to the setter is rebuilt with [Span(...)]. *)
Fixpoint rebuild_spans (d : Doc) (spans : list Span) : result (list Span) :=
  match spans with
  | [] => Ok []
  | sp :: spans' =>
      match Span_new d (sp_start sp) (sp_end sp) (sp_label sp) with
      | Raise e => Raise e
      | Ok sp' =>
          match rebuild_spans d spans' with
          | Raise e => Raise e
          | Ok l => Ok (sp' :: l)
          end
      end
  end.

(** [doc.ents] read. *)
Definition Doc_get_ents : M World (list Span) :=
  fun w => (w, Ok (ents (doc w))).

(** A span with a label: [span.label > 0]. *)
Definition labelled (sp : Span) : bool := negb (sp_label sp =? 0).

(** [doc.ents = spans].  [Doc.set_ents] first drops the spans without a
    label, then checks the others; the check runs before any tag is
    written, so a refused assignment leaves the document as it was. *)
Definition Doc_set_ents (spans : list Span) : M World unit :=
  fun w =>
    match rebuild_spans (doc w) spans with
    | Raise e => (w, Raise e)
    | Ok spans' =>
        let entities := filter (fun sp => labelled sp = true) spans' in
        match check_spans entities ∅ with
        | Raise e => (w, Raise e)
        | Ok _ => (set_doc (set_ents (decode_ents entities) (doc w)) w, Ok tt)
        end
    end.

(** ** [StringStore] calls on [nlp.vocab.strings] *)

Definition vocab_strings_add (s : string) : M World Z :=
  fun w =>
    let '(key, store) := StringStore.add s (vocab_strings w) in
    (set_vocab_strings store w, Ok key).

Definition vocab_strings_getitem (s : string) : M World Z :=
  fun w => (w, Ok (StringStore.getitem_str s (vocab_strings w))).

(** The two statements that register a concept code and read its id:
    [self.nlp.vocab.strings.add(cui)] and then
    [self.nlp.vocab.strings[cui]]. *)
Definition intern (cui : string) : M World Z :=
  vocab_strings_add cui ;;;
  vocab_strings_getitem cui.

(** ** [SpacyQuickUMLS] *)

(** [QuickUMLS._match(doc, best_match, ignore_syntax)]: the external
    matching engine, taken to return its list of match groups. *)
Definition Engine : Type := Doc -> bool -> bool -> list (list MatchRecord).

Record SpacyQuickUMLS : Type := mkSpacyQuickUMLS {
  quickumls : Engine;
  best_match : bool;
  ignore_syntax : bool
}.

(** [SpacyQuickUMLS.__init__].  [QuickUMLS] is the engine's constructor
    applied to its keyword arguments; it may raise. *)
Definition __init__ (QuickUMLS : string -> result Engine)
  (quickumls_fp : string) (best_match_ ignore_syntax_ : bool)
  : M World SpacyQuickUMLS :=
  q <~ (fun w => (w, QuickUMLS quickumls_fp)) ;;
  Span_set_extension "similarity" (PyFloat (-1)) ;;;
  Span_set_extension "semtypes" (PyFloat (-1)) ;;;
  ret (mkSpacyQuickUMLS q best_match_ ignore_syntax_).

(** [print(e, span, span.start, span.end)] *)
Definition print_conflict (e : exn) (sp : Span) : M World unit :=
  modify (write_stdout (mkLine e sp (sp_start sp) (sp_end sp))).

(** The body of the inner loop of [__call__], for one
    [ngram_match_dict].  [span] is [None] when the offsets are not
    aligned; the two attribute assignments go through [span._]. *)
Definition materialize (ngram_match_dict : MatchRecord) : M World unit :=
  let start_char_idx := md_start ngram_match_dict in
  let end_char_idx := md_end ngram_match_dict in
  let cui := md_cui ngram_match_dict in
  cui_label_value <~ intern cui ;;
  span <~ (fun w =>
             (w, char_span (doc w) start_char_idx end_char_idx
                   cui_label_value)) ;;
  sp <~ underscore span ;;
  underscore_setattr sp "similarity"
    (PyFloat (md_similarity ngram_match_dict)) ;;;
  sp' <~ underscore span ;;
  underscore_setattr sp' "semtypes"
    (PySet (md_semtypes ngram_match_dict)) ;;;
  try_except_ValueError
    (old <~ Doc_get_ents ;;
     Doc_set_ents (old ++ [sp']))
    (fun e => print_conflict e sp').

(** [SpacyQuickUMLS.__call__(doc)], the document being [doc w]. *)
Definition __call__ (self : SpacyQuickUMLS) : M World Doc :=
  w <~ get ;;
  let matches :=
    quickumls self (doc w) (best_match self) (ignore_syntax self) in
  for_each matches (fun match_ =>
    for_each match_ (fun ngram_match_dict =>
      materialize ngram_match_dict)) ;;;
  w' <~ get ;;
  ret (doc w').

(** ** The factory *)

(** The keyword arguments that the factory hands on to [QuickUMLS]. *)
Record QuickUMLS_kwargs : Type := mkKwargs {
  overlapping_criteria : string;
  threshold : Q;
  similarity_name : string;
  min_match_length : Z;
  accepted_semtypes : gset string;
  verbose : bool;
  keep_uppercase : bool
}.

(** [QuickUMLS(quickumls_fp, spacy_component=..., **kwargs)]: the
    constructor of the external engine; it may raise. *)
Definition QuickUMLS_constructor : Type :=
  string -> bool -> QuickUMLS_kwargs -> result Engine.

(** [create_quickumls], the factory registered as "quickumls": it calls
    [SpacyQuickUMLS(nlp, quickumls_fp, best_match=..., ...)], whose
    [__init__] builds the engine with [spacy_component = True] and the
    remaining keyword arguments.  [nlp] is the pipeline whose vocabulary
    the world holds. *)
Definition create_quickumls (QuickUMLS : QuickUMLS_constructor)
  (name : string) (quickumls_fp : string) (best_match_ ignore_syntax_ : bool)
  (overlapping_criteria_ : string) (threshold_ : Q)
  (similarity_name_ : string) (min_match_length_ : Z)
  (accepted_semtypes_ : gset string) (verbose_ keep_uppercase_ : bool)
  : M World SpacyQuickUMLS :=
  __init__
    (fun fp =>
       QuickUMLS fp true
         (mkKwargs overlapping_criteria_ threshold_ similarity_name_
            min_match_length_ accepted_semtypes_ verbose_ keep_uppercase_))
    quickumls_fp best_match_ ignore_syntax_.

(** * Vocabulary of the properties *)

(** The world after [intern cui]. *)
Definition interned (cui : string) (w : World) : World :=
  set_vocab_strings (StringStore.add cui (vocab_strings w)).2 w.

(** The world after the two attribute assignments on [sp]. *)
Definition annotated (r : MatchRecord) (sp : Span) (w : World) : World :=
  let d := doc w in
  let u1 := <[underscore_key d sp "similarity" := PyFloat (md_similarity r)]>
              (user_data d) in
  let u2 := <[underscore_key d sp "semtypes" := PySet (md_semtypes r)]> u1 in
  set_doc (set_user_data u2 d) w.

(** Both extensions of [__init__] are registered. *)
Definition extensions_registered (w : World) : Prop :=
  is_Some (span_extensions w !! "similarity"%string) /\
  is_Some (span_extensions w !! "semtypes"%string).

(** The label that [__call__] gives the span of a record. *)
Definition label_of (r : MatchRecord) : Z := StringStore.key_of (md_cui r).

(** The span [Doc.char_span] gives for a record. *)
Definition span_of (d : Doc) (r : MatchRecord) : result (option Span) :=
  char_span d (md_start r) (md_end r) (label_of r).

(** The assignment [doc.ents = list(doc.ents) + [span]] inside its
    [try], run in world [w]. *)
Definition commit (sp : Span) : M World unit :=
  try_except_ValueError
    (old <~ Doc_get_ents ;; Doc_set_ents (old ++ [sp]))
    (fun e => print_conflict e sp).

(** Two spans share no token. *)
Definition tokens_disjoint (a b : Span) : Prop :=
  forall i, i ∈ span_tokens a -> i ∉ span_tokens b.

(** No two entries of the list share a token. *)
Fixpoint no_overlap (l : list Span) : Prop :=
  match l with
  | [] => True
  | a :: l' => Forall (tokens_disjoint a) l' /\ no_overlap l'
  end.

(** The tokens covered by a list of spans. *)
Definition covered (l : list Span) : gset nat :=
  ⋃ (map (fun sp => list_to_set (span_tokens sp)) l).

(** The range of a span lies within the document. *)
Definition in_range (d : Doc) (sp : Span) : Prop :=
  (sp_start sp <= sp_end sp <= length (tokens d))%nat.

(** What every document satisfies: its entities are non-empty labelled
    spans within the document, and no token belongs to two of them. *)
Definition Doc_wf (d : Doc) : Prop :=
  Forall (fun sp => is_entity sp = true /\ in_range d sp) (ents d) /\
  no_overlap (ents d).

(** The records the engine returns for the document of [w], in the order
    in which [__call__] visits them. *)
Definition records (self : SpacyQuickUMLS) (w : World) : list MatchRecord :=
  concat (quickumls self (doc w) (best_match self) (ignore_syntax self)).

(** Two entries whose token ranges are not identical and not disjoint. *)
Definition partial_overlap (a b : Span) : Prop :=
  (sp_start a, sp_end a) <> (sp_start b, sp_end b) /\
  exists i, i ∈ span_tokens a /\ i ∈ span_tokens b.

(** The records that the loop gets to: all of them up to and including
    the first whose processing raises. *)
Fixpoint reached (l : list MatchRecord) (w : World) : list MatchRecord :=
  match l with
  | [] => []
  | r :: l' =>
      match materialize r w with
      | (w1, Ok _) => r :: reached l' w1
      | (_, Raise _) => [r]
      end
  end.

(** The tokens of a document follow one another in the text: each is at
    least one character long and starts no earlier than where the one
    before it, with its trailing whitespace, ends. *)
Fixpoint tokens_after (pos : Z) (toks : list Token) : Prop :=
  match toks with
  | [] => True
  | t :: toks' =>
      pos <= tok_idx t /\ 0 < tok_len t /\
      tokens_after (tok_end t + (if tok_spacy t then 1 else 0)) toks'
  end.

(** Offsets start at 0. *)
Definition tokens_ordered (d : Doc) : Prop := tokens_after 0 (tokens d).

(** [a] is the first character of a token and [b] is one past the last
    character of a token. *)
Definition aligned (d : Doc) (a b : Z) : Prop :=
  exists i j t_i t_j,
    tokens d !! i = Some t_i /\ tok_idx t_i = a /\
    tokens d !! j = Some t_j /\ tok_end t_j = b.

(** The token range of a span maps back to the characters [a] to [b]:
    the span is not empty, its first token starts at [a], its last
    token ends at [b], and so [span.start_char] is [a] and
    [span.end_char] is [b]. *)
Definition maps_back (d : Doc) (sp : Span) (a b : Z) : Prop :=
  (sp_start sp < sp_end sp)%nat /\
  (exists t_first t_last,
     tokens d !! sp_start sp = Some t_first /\ tok_idx t_first = a /\
     tokens d !! pred (sp_end sp) = Some t_last /\ tok_end t_last = b) /\
  start_char d sp = a /\ end_char d sp = b.

(** [j] is the first token of [sp] that belongs to one of the spans
    [es]. *)
Definition first_shared (es : list Span) (sp : Span) (j : nat) : Prop :=
  j ∈ span_tokens sp /\
  (exists sp0, sp0 ∈ es /\ j ∈ span_tokens sp0) /\
  forall k x, k ∈ span_tokens sp -> x ∈ es -> k ∈ span_tokens x ->
              (j <= k)%nat.

(** What a batch prints, read off the entities [es] of the document
    and the spans of the records.  A record whose span has a label and
    shares a token with an entity prints the line of the refusal, which
    names the first such token [j], and leaves the entities as they
    are; a record whose span has no label,
    or shares no token with any entity, prints nothing and its span is
    handed to the entities.  [es'] are the entities when the batch
    ends. *)
Inductive batch_report (d : Doc)
  : list Span -> list MatchRecord -> list PrintedLine -> list Span -> Prop :=
| report_done es : batch_report d es [] [] es
| report_refused es r l sp j lines es' :
    span_of d r = Ok (Some sp) -> sp_label sp <> 0 ->
    first_shared es sp j ->
    batch_report d es l lines es' ->
    batch_report d es (r :: l)
      (mkLine (ValueError_E1010 j) sp (sp_start sp) (sp_end sp) :: lines) es'
| report_accepted es r l sp lines es' :
    span_of d r = Ok (Some sp) ->
    (sp_label sp = 0 \/ forall x, x ∈ es -> tokens_disjoint x sp) ->
    batch_report d (decode_ents (es ++ [sp])) l lines es' ->
    batch_report d es (r :: l) lines es'.

(** The format of a concept code of the UMLS (a CUI): the letter C
    followed by seven decimal digits. *)
Definition is_digit (a : Ascii.ascii) : bool :=
  (48 <=? Ascii.nat_of_ascii a)%nat && (Ascii.nat_of_ascii a <=? 57)%nat.

Definition is_cui (s : string) : bool :=
  String.prefix "C" s &&
  (String.length s =? 8)%nat &&
  forallb is_digit (String.list_ascii_of_string (String.substring 1 7 s)).

(** A 64-bit word. *)
Definition word64 (x : Z) : Prop := 0 <= x < 2 ^ 64.

(** [h ^= h >> r] *)
Definition xorshift (x : Z) : Z := Z.lxor x (Z.shiftr x Murmur.r).

(** The inverse of [m] modulo [2 ^ 64]. *)
Definition m_inv : Z := 0x5f7a0ea7e59b19bd.

(** A byte. *)
Definition byte (b : Z) : Prop := 0 <= b < 256.

(** [seed ^ (len * m)] for the seed 1 and a key of eight bytes. *)
Definition seed8 : Z := Z.lxor 1 (Murmur.mul64 8 Murmur.m).

(** The spans of the records are entities: not empty, label not 0. *)
Definition entity_records (d : Doc) (l : list MatchRecord) : Prop :=
  forall r sp, r ∈ l -> span_of d r = Ok (Some sp) -> is_entity sp = true.


(** The name under which an attribute is stored. *)
Definition metadata_name (name : string) : Prop :=
  name = "similarity"%string \/ name = "semtypes"%string.

(** * Example data *)

(** Example document: the text "Patient has diabetes mellitus", four
    tokens at the character offsets 0, 8, 12 and 21. *)
Module Example.
Definition toks : list Token :=
  [mkToken 0 7 true; mkToken 8 3 true; mkToken 12 8 true;
   mkToken 21 8 false].

Definition doc0 : Doc := mkDoc toks [] ∅.

(** the extensions as [__init__] registers them *)
Definition exts : gmap string pyval :=
  <["semtypes"%string := PyFloat (-1)]>
    (<["similarity"%string := PyFloat (-1)]> ∅).

Definition world0 : World := mkWorld exts ∅ doc0 [].

(** an engine that returns the given groups *)
Definition engine (groups : list (list MatchRecord)) : Engine :=
  fun _ _ _ => groups.

Definition component (best : bool) (groups : list (list MatchRecord))
  : SpacyQuickUMLS :=
  mkSpacyQuickUMLS (engine groups) best false.

(** "diabetes mellitus", characters 12 to 29 *)
Definition diabetes_mellitus : MatchRecord :=
  mkMatch 12 29 "C0011849" (95 # 100) {["T047"%string]}.
(** a second concept for the same characters *)
Definition diabetes_mellitus' : MatchRecord :=
  mkMatch 12 29 "C0011860" (80 # 100) {["T048"%string]}.
(** "diabetes", characters 12 to 20 *)
Definition diabetes : MatchRecord :=
  mkMatch 12 20 "C0011847" (1 # 1) {["T047"%string]}.
(** "Patient", characters 0 to 7 *)
Definition patient : MatchRecord :=
  mkMatch 0 7 "C0030705" (1 # 1) {["T101"%string]}.
(** starts inside "diabetes" *)
Definition misaligned : MatchRecord :=
  mkMatch 13 29 "C0011860" (80 # 100) {["T048"%string]}.
End Example.

(** The world after a first call that commits "diabetes mellitus" and
    refuses "diabetes". *)
Definition after_first_call : World :=
  (__call__ (Example.component false
               [[Example.diabetes_mellitus]; [Example.diabetes]])
     Example.world0).1.

(** the spans of "diabetes" and of "diabetes mellitus" *)
Definition span_diabetes : Span := mkSpan 2 3 (label_of Example.diabetes).
Definition span_diabetes_mellitus : Span :=
  mkSpan 2 4 (label_of Example.diabetes_mellitus).

(** a second call whose engine yields "diabetes", and one whose engine
    yields nothing *)
Definition second_call_conflict : World * result Doc :=
  __call__ (Example.component false [[Example.diabetes]]) after_first_call.
Definition second_call_nothing : World * result Doc :=
  __call__ (Example.component false []) after_first_call.

(** a group with two concepts for "diabetes mellitus", under either
    policy *)
Definition best_match_component : SpacyQuickUMLS :=
  Example.component true
    [[Example.diabetes_mellitus; Example.diabetes_mellitus']].
Definition all_matches_component : SpacyQuickUMLS :=
  Example.component false
    [[Example.diabetes_mellitus; Example.diabetes_mellitus']].

(** "diabetes mellitus", then the partially overlapping "diabetes",
    then "Patient" *)
Definition overlap_component : SpacyQuickUMLS :=
  Example.component false
    [[Example.diabetes_mellitus]; [Example.diabetes]; [Example.patient]].

(** the world after the first record of that group *)
Definition after_first_record : World :=
  (for_each [Example.diabetes_mellitus] materialize Example.world0).1.

(** the span of the second concept *)
Definition span_diabetes_mellitus' : Span :=
  mkSpan 2 4 (label_of Example.diabetes_mellitus').

(** a misaligned record, then a well-aligned one *)
Definition misaligned_component : SpacyQuickUMLS :=
  Example.component true [[Example.misaligned]; [Example.patient]].

(** the same record in two groups, and in one *)
Definition twice_component : SpacyQuickUMLS :=
  Example.component true
    [[Example.diabetes_mellitus]; [Example.diabetes_mellitus]].
Definition once_component : SpacyQuickUMLS :=
  Example.component true [[Example.diabetes_mellitus]].

(** a batch that ends at its misaligned record *)
Definition three_groups_component : SpacyQuickUMLS :=
  Example.component false
    [[Example.diabetes_mellitus; Example.diabetes_mellitus'];
     [Example.diabetes]; [Example.misaligned]; [Example.patient]].

(** a process with no extension registered, and an engine constructor
    that succeeds *)
Definition fresh_process : World := mkWorld ∅ ∅ Example.doc0 [].
Definition build_engine (fp : string) : result Engine :=
  Ok (Example.engine []).

(** two codes of sixteen characters with the same hash *)
Definition code_a : string := "C0011860PKINQLQP".
Definition code_b : string := "C001184914JMG74L".

(** two groups of one record each, and the same records in one group
    under the other policy *)
Definition two_groups_component : SpacyQuickUMLS :=
  Example.component true [[Example.diabetes_mellitus]; [Example.patient]].
Definition one_group_component : SpacyQuickUMLS :=
  Example.component false [[Example.diabetes_mellitus; Example.patient]].

(** a component whose engine yields "Patient" *)
Definition patient_component : SpacyQuickUMLS :=
  Example.component true [[Example.patient]].

(** the world when the loop gets to the misaligned record of
    [three_groups_component] *)
Definition before_misaligned : World :=
  (for_each
     [Example.diabetes_mellitus; Example.diabetes_mellitus';
      Example.diabetes]
     materialize Example.world0).1.

(** a process in which some other package has registered [semtypes] *)
Definition semtypes_taken_process : World :=
  mkWorld (<["semtypes"%string := PySet ∅]> ∅) ∅ Example.doc0 [].

(** an engine constructor, with its keyword arguments, that succeeds *)
Definition build_engine_kw : QuickUMLS_constructor :=
  fun _ _ _ => Ok (Example.engine []).

(** * Properties *)

(** ** Worlds reached by one record *)

Lemma intern_run cui w :
  intern cui w = (interned cui w, Ok (StringStore.key_of cui)).
Proof.
  unfold intern, bind, vocab_strings_add, vocab_strings_getitem, interned.
  destruct (StringStore.add cui (vocab_strings w)) as [k st] eqn:E.
  reflexivity.
Qed.

Lemma doc_interned cui w : doc (interned cui w) = doc w.
Proof. reflexivity. Qed.

Lemma materialize_eq r w :
  materialize r w =
  let w1 := interned (md_cui r) w in
  match span_of (doc w) r with
  | Raise e => (w1, Raise e)
  | Ok None => (w1, Raise (AttributeError_NoneType "_"))
  | Ok (Some sp) =>
      (underscore_setattr sp "similarity" (PyFloat (md_similarity r)) ;;;
       underscore_setattr sp "semtypes" (PySet (md_semtypes r)) ;;;
       try_except_ValueError
         (old <~ Doc_get_ents ;; Doc_set_ents (old ++ [sp]))
         (fun e => print_conflict e sp)) w1
  end.
Proof.
  unfold materialize. unfold bind at 1. rewrite intern_run.
  unfold bind at 1. unfold span_of, label_of.
  change (doc (interned (md_cui r) w)) with (doc w).
  destruct (char_span (doc w) (md_start r) (md_end r)
              (StringStore.key_of (md_cui r))) as [[sp|]|e]; try reflexivity.
Qed.

Lemma materialize_aligned r w sp :
  span_of (doc w) r = Ok (Some sp) ->
  extensions_registered w ->
  materialize r w = commit sp (annotated r sp (interned (md_cui r) w)).
Proof.
  intros Hsp [[v1 H1] [v2 H2]].
  rewrite materialize_eq. cbv zeta. rewrite Hsp.
  unfold bind at 1. unfold underscore_setattr at 1.
  change (span_extensions (interned (md_cui r) w)) with (span_extensions w).
  rewrite H1. unfold bind at 1. unfold underscore_setattr at 1.
  cbn [span_extensions set_doc].
  change (span_extensions (interned (md_cui r) w)) with (span_extensions w).
  rewrite H2. reflexivity.
Qed.

Lemma materialize_misaligned r w :
  span_of (doc w) r = Ok None ->
  materialize r w =
    (interned (md_cui r) w, Raise (AttributeError_NoneType "_")).
Proof. intros H. rewrite materialize_eq. cbv zeta. now rewrite H. Qed.

Lemma rebuild_spans_raises d l e :
  rebuild_spans d l = Raise e -> is_ValueError e = false.
Proof.
  revert e. induction l as [|sp l IH]; intros e; cbn; [discriminate|].
  unfold Span_new.
  destruct (_ && _); [|intros [= <-]; reflexivity].
  destruct (rebuild_spans d l); [discriminate|].
  intros [= <-]. now apply IH.
Qed.

Lemma claim_tokens_raises toks seen e :
  claim_tokens toks seen = Raise e -> exists i, e = ValueError_E1010 i.
Proof.
  revert seen. induction toks as [|i toks IH]; intros seen; cbn;
    [discriminate|].
  destruct (decide (i ∈ seen)); [intros [= <-]; eauto|]. apply IH.
Qed.

Lemma check_spans_raises l seen e :
  check_spans l seen = Raise e -> exists i, e = ValueError_E1010 i.
Proof.
  revert seen. induction l as [|sp l IH]; intros seen; cbn; [discriminate|].
  destruct (claim_tokens (span_tokens sp) seen) eqn:E.
  - apply IH.
  - intros [= <-]. eapply claim_tokens_raises, E.
Qed.

(** The three ways the guarded assignment can end. *)
Lemma commit_eq sp w :
  commit sp w =
  match rebuild_spans (doc w) (ents (doc w) ++ [sp]) with
  | Raise e => (w, Raise e)
  | Ok l =>
      let entities := filter (fun x => labelled x = true) l in
      match check_spans entities ∅ with
      | Raise e => (write_stdout (mkLine e sp (sp_start sp) (sp_end sp)) w,
                    Ok tt)
      | Ok _ => (set_doc (set_ents (decode_ents entities) (doc w)) w, Ok tt)
      end
  end.
Proof.
  unfold commit, try_except_ValueError, bind, Doc_get_ents, Doc_set_ents.
  destruct (rebuild_spans (doc w) (ents (doc w) ++ [sp])) as [l|e] eqn:E.
  - cbv zeta.
    destruct (check_spans (filter (fun x => labelled x = true) l) ∅)
      as [s|e] eqn:C; [reflexivity|].
    destruct (check_spans_raises _ _ _ C) as [i ->]. reflexivity.
  - now rewrite (rebuild_spans_raises _ _ _ E).
Qed.

(** ** The overlap check *)

Lemma elem_of_span_tokens i sp :
  i ∈ span_tokens sp <-> (sp_start sp <= i < sp_end sp)%nat.
Proof. unfold span_tokens. rewrite elem_of_seq. lia. Qed.

Lemma tokens_disjoint_sym a b : tokens_disjoint a b -> tokens_disjoint b a.
Proof. intros H i Hb Ha. exact (H i Ha Hb). Qed.

Lemma elem_of_covered i l :
  i ∈ covered l <-> exists sp, sp ∈ l /\ i ∈ span_tokens sp.
Proof.
  unfold covered. induction l as [|a l IH]; cbn.
  - split; [set_solver|]. intros (sp & H & _). inversion H.
  - rewrite elem_of_union, IH, elem_of_list_to_set. split.
    + intros [H|(sp & H1 & H2)].
      * exists a. split; [left|done].
      * exists sp. split; [now right|done].
    + intros (sp & H1 & H2). apply elem_of_cons in H1 as [->|H1];
        [now left|right; eauto].
Qed.

Lemma claim_tokens_Ok toks seen seen' :
  claim_tokens toks seen = Ok seen' ->
  (forall i, i ∈ toks -> i ∉ seen) /\ seen' = list_to_set toks ∪ seen.
Proof.
  revert seen. induction toks as [|i toks IH]; intros seen; cbn.
  - intros [= <-]. split; [intros i H; inversion H|set_solver].
  - destruct (decide (i ∈ seen)) as [|Hi]; [discriminate|].
    intros H. apply IH in H as [H1 ->]. split; [|set_solver].
    intros j Hj. apply elem_of_cons in Hj as [->|Hj]; [done|].
    specialize (H1 j Hj). set_solver.
Qed.

Lemma claim_tokens_fresh toks seen :
  NoDup toks -> (forall i, i ∈ toks -> i ∉ seen) ->
  claim_tokens toks seen = Ok (list_to_set toks ∪ seen).
Proof.
  revert seen. induction toks as [|i toks IH]; intros seen Hnd Hfr; cbn.
  - f_equal. set_solver.
  - apply NoDup_cons in Hnd as [Hi Hnd].
    destruct (decide (i ∈ seen)) as [Hin|_].
    + exfalso. apply (Hfr i); [left|done].
    + rewrite IH; [f_equal; set_solver|done|].
      intros j Hj. assert (Hj' : j ∈ i :: toks) by (apply elem_of_cons; auto).
      specialize (Hfr j Hj'). set_solver.
Qed.


Lemma check_spans_app l sp seen :
  check_spans (l ++ [sp]) seen =
  match check_spans l seen with
  | Ok s => claim_tokens (span_tokens sp) s
  | Raise e => Raise e
  end.
Proof.
  revert seen. induction l as [|a l IH]; intros seen; cbn.
  - now destruct (claim_tokens (span_tokens sp) seen).
  - destruct (claim_tokens (span_tokens a) seen); [apply IH|reflexivity].
Qed.

Lemma check_spans_Ok l seen seen' :
  check_spans l seen = Ok seen' ->
  no_overlap l /\
  (forall i, i ∈ covered l -> i ∉ seen) /\
  seen' = covered l ∪ seen.
Proof.
  revert seen. induction l as [|a l IH]; intros seen; cbn.
  - intros [= <-]. unfold covered. cbn. set_solver.
  - destruct (claim_tokens (span_tokens a) seen) as [s|] eqn:E;
      [|discriminate].
    apply claim_tokens_Ok in E as [Ha ->].
    intros H. apply IH in H as (Hno & Hfr & ->).
    split; [split; [|done]|split].
    + apply Forall_forall. intros b Hb i Hia Hib.
      apply (Hfr i); [apply elem_of_covered; eauto|].
      set_solver.
    + intros i Hi. unfold covered in Hi. cbn in Hi.
      apply elem_of_union in Hi as [Hi|Hi].
      * apply Ha. set_solver.
      * specialize (Hfr i Hi). set_solver.
    + unfold covered. cbn. set_solver.
Qed.

Lemma NoDup_span_tokens sp : NoDup (span_tokens sp).
Proof. apply NoDup_seq. Qed.

Lemma check_spans_fresh l seen :
  no_overlap l -> (forall i, i ∈ covered l -> i ∉ seen) ->
  check_spans l seen = Ok (covered l ∪ seen).
Proof.
  revert seen. induction l as [|a l IH]; intros seen Hno Hfr; cbn.
  - f_equal. unfold covered. cbn. set_solver.
  - destruct Hno as [Ha Hno].
    rewrite claim_tokens_fresh; [|apply NoDup_span_tokens|].
    + rewrite IH; [f_equal; unfold covered; cbn; set_solver|done|].
      intros i Hi. apply elem_of_covered in Hi as (b & Hb & Hi).
      rewrite elem_of_union, elem_of_list_to_set. intros [Hia|Hs].
      * rewrite Forall_forall in Ha. exact (Ha b Hb i Hia Hi).
      * apply (Hfr i); [|done]. apply elem_of_covered. exists b.
        split; [now right|done].
    + intros i Hi. apply Hfr. apply elem_of_covered. exists a.
      split; [left|done].
Qed.

(** ** Decoding the tags *)

Lemma elem_of_insert_by_start x sp l :
  x ∈ insert_by_start sp l <-> x = sp \/ x ∈ l.
Proof.
  induction l as [|a l IH]; cbn.
  - rewrite list_elem_of_singleton, elem_of_nil. tauto.
  - destruct (sp_start sp <=? sp_start a)%nat.
    + now rewrite elem_of_cons.
    + rewrite !elem_of_cons, IH. tauto.
Qed.

Lemma decode_ents_cons a l :
  decode_ents (a :: l) =
  if is_entity a then insert_by_start a (decode_ents l) else decode_ents l.
Proof.
  unfold decode_ents. cbn. unfold filter at 1. cbn.
  destruct (is_entity a); cbn.
  - destruct (decide (true = true)); [reflexivity|congruence].
  - destruct (decide (false = true)); [congruence|reflexivity].
Qed.

Lemma elem_of_decode_ents x l :
  x ∈ decode_ents l <-> x ∈ l /\ is_entity x = true.
Proof.
  induction l as [|a l IH].
  - unfold decode_ents. cbn. rewrite !elem_of_nil. tauto.
  - rewrite decode_ents_cons, elem_of_cons.
    destruct (is_entity a) eqn:E.
    + rewrite elem_of_insert_by_start, IH. split.
      * intros [->|[? ?]]; auto.
      * intros [[->|?] ?]; auto.
    + rewrite IH. split; [tauto|].
      intros [[->|?] ?]; [congruence|auto].
Qed.

Lemma no_overlap_insert sp l :
  Forall (tokens_disjoint sp) l -> no_overlap l ->
  no_overlap (insert_by_start sp l).
Proof.
  induction l as [|a l IH]; cbn; intros Hsp Hno.
  - auto.
  - destruct (sp_start sp <=? sp_start a)%nat; cbn; [auto|].
    destruct Hno as [Ha Hno]. apply Forall_cons in Hsp as [Hsa Hsp].
    split; [|auto].
    apply Forall_forall. intros x Hx.
    apply elem_of_insert_by_start in Hx as [->|Hx].
    + now apply tokens_disjoint_sym.
    + rewrite Forall_forall in Ha. auto.
Qed.

Lemma no_overlap_decode l : no_overlap l -> no_overlap (decode_ents l).
Proof.
  induction l as [|a l IH]; [intros _; exact I|].
  intros [Ha Hno]. rewrite decode_ents_cons.
  destruct (is_entity a); [|auto].
  apply no_overlap_insert; [|auto].
  apply Forall_forall. intros x Hx. apply elem_of_decode_ents in Hx as [Hx _].
  rewrite Forall_forall in Ha. auto.
Qed.

(** ** Well-formed documents *)

Lemma Span_new_Ok d sp :
  in_range d sp ->
  Span_new d (sp_start sp) (sp_end sp) (sp_label sp) = Ok sp.
Proof.
  intros [H1 H2]. unfold Span_new.
  apply Nat.leb_le in H1, H2. rewrite H1, H2. now destruct sp.
Qed.

Lemma Span_new_inv d a b lab sp :
  Span_new d a b lab = Ok sp ->
  sp = mkSpan a b lab /\ (a <= b <= length (tokens d))%nat.
Proof.
  unfold Span_new. destruct (a <=? b)%nat eqn:E1; [|discriminate].
  destruct (b <=? length (tokens d))%nat eqn:E2; [|discriminate].
  cbn. intros [= <-]. apply Nat.leb_le in E1, E2. auto.
Qed.

Lemma rebuild_spans_Ok d l :
  Forall (in_range d) l -> rebuild_spans d l = Ok l.
Proof.
  induction 1 as [|sp l Hsp _ IH]; cbn; [reflexivity|].
  now rewrite Span_new_Ok, IH.
Qed.

Lemma rebuild_spans_inv d l l' :
  rebuild_spans d l = Ok l' -> l' = l /\ Forall (in_range d) l.
Proof.
  revert l'. induction l as [|sp l IH]; intros l'; cbn.
  - intros [= <-]. auto.
  - destruct (Span_new d (sp_start sp) (sp_end sp) (sp_label sp))
      as [sp'|] eqn:E; [|discriminate].
    destruct (rebuild_spans d l) as [l0|]; [|discriminate].
    intros [= <-]. apply Span_new_inv in E as [-> E].
    destruct (IH l0 eq_refl) as [-> IH']. split.
    + now destruct sp.
    + constructor; [exact E|exact IH'].
Qed.

Lemma char_span_inv d a b lab sp :
  char_span d a b lab = Ok (Some sp) ->
  exists t_first t_last,
    tokens d !! sp_start sp = Some t_first /\ tok_idx t_first = a /\
    (0 < sp_end sp)%nat /\
    tokens d !! pred (sp_end sp) = Some t_last /\ tok_end t_last = b /\
    sp_label sp = lab /\ in_range d sp.
Proof.
  unfold char_span.
  destruct (negb (c_int a && c_int b)); [discriminate|].
  destruct (token_by_char (tokens d) a) as [i|]; [|discriminate].
  destruct (tokens d !! i) as [ti|] eqn:Ei; [|discriminate].
  destruct (a =? tok_idx ti) eqn:Ea; cbn; [|discriminate].
  destruct (token_by_char (tokens d) (b - 1)) as [j|]; [|discriminate].
  destruct (tokens d !! j) as [tj|] eqn:Ej; [|discriminate].
  destruct (b =? tok_end tj) eqn:Eb; cbn; [|discriminate].
  destruct (Span_new d i (S j) lab) as [sp'|] eqn:E; [|discriminate].
  intros [= <-]. apply Span_new_inv in E as [-> E]. cbn.
  exists ti, tj. apply Z.eqb_eq in Ea, Eb. unfold in_range. cbn.
  repeat split; auto; lia.
Qed.

(** ** One record: what changes and what does not *)

Lemma is_entity_labelled sp : is_entity sp = true -> labelled sp = true.
Proof. unfold is_entity, labelled. now intros [_ H]%andb_true_iff. Qed.

Lemma decode_ents_labelled l :
  decode_ents (filter (fun x => labelled x = true) l) = decode_ents l.
Proof.
  induction l as [|a l IH]; [reflexivity|].
  rewrite filter_cons. destruct (decide (labelled a = true)) as [Ha|Ha].
  - now rewrite !decode_ents_cons, IH.
  - rewrite decode_ents_cons, IH.
    destruct (is_entity a) eqn:E; [|reflexivity].
    now apply is_entity_labelled in E.
Qed.

(** The spans that the setter checks, on a document whose entities are
    labelled: the entities, and the new span if it has a label. *)
Lemma labelled_ents_app l sp :
  Forall (fun x => is_entity x = true) l ->
  filter (fun x => labelled x = true) (l ++ [sp]) =
  l ++ (if labelled sp then [sp] else []).
Proof.
  intros H. rewrite filter_app. f_equal.
  - induction H as [|a l Ha _ IH]; [reflexivity|].
    rewrite filter_cons, IH.
    destruct (decide (labelled a = true)) as [|N]; [reflexivity|].
    now apply is_entity_labelled in Ha.
  - rewrite filter_cons. cbn.
    destruct (decide (labelled sp = true)) as [->|N]; [reflexivity|].
    now destruct (labelled sp).
Qed.

Lemma commit_wf sp w :
  Forall (in_range (doc w)) (ents (doc w)) -> in_range (doc w) sp ->
  commit sp w =
  match check_spans
          (filter (fun x => labelled x = true) (ents (doc w) ++ [sp])) ∅ with
  | Raise e => (write_stdout (mkLine e sp (sp_start sp) (sp_end sp)) w, Ok tt)
  | Ok _ =>
      (set_doc (set_ents (decode_ents (ents (doc w) ++ [sp])) (doc w)) w,
       Ok tt)
  end.
Proof.
  intros Hr Hsp. rewrite commit_eq, rebuild_spans_Ok.
  - cbv zeta. now rewrite decode_ents_labelled.
  - apply Forall_app. split; [exact Hr|]. now constructor.
Qed.

(** The part of the world that [commit] never touches. *)
Lemma commit_frame sp w :
  let w' := (commit sp w).1 in
  span_extensions w' = span_extensions w /\
  vocab_strings w' = vocab_strings w /\
  tokens (doc w') = tokens (doc w) /\
  user_data (doc w') = user_data (doc w) /\
  exists lines, stdout w' = stdout w ++ lines /\
    (length lines <= 1)%nat /\
    Forall (fun l => is_ValueError (ln_exn l) = true) lines.
Proof.
  rewrite commit_eq.
  destruct (rebuild_spans (doc w) (ents (doc w) ++ [sp])) as [l|e]; cbn.
  - destruct (check_spans (filter (fun x => labelled x = true) l) ∅)
      as [s|e] eqn:C; cbn.
    + repeat split; auto. exists []. rewrite app_nil_r. cbn. auto.
    + repeat split; auto. eexists [_]. split; [reflexivity|].
      split; [cbn; lia|]. constructor; [|constructor]. cbn.
      destruct (check_spans_raises _ _ _ C) as [i ->]. reflexivity.
  - repeat split; auto. exists []. rewrite app_nil_r. cbn. auto.
Qed.

(** Whatever a record is, and however its processing ends: the code is
    interned, tokens and extensions are untouched, and at most one line,
    for a [ValueError], is printed. *)
Lemma materialize_frame r w w' res :
  materialize r w = (w', res) ->
  span_extensions w' = span_extensions w /\
  vocab_strings w' = vocab_strings (interned (md_cui r) w) /\
  tokens (doc w') = tokens (doc w) /\
  exists lines, stdout w' = stdout w ++ lines /\
    (length lines <= 1)%nat /\
    Forall (fun l => is_ValueError (ln_exn l) = true) lines.
Proof.
  assert (Hnil : forall w0 : World, span_extensions w0 = span_extensions w ->
    vocab_strings w0 = vocab_strings (interned (md_cui r) w) ->
    tokens (doc w0) = tokens (doc w) -> stdout w0 = stdout w ->
    span_extensions w0 = span_extensions w /\
    vocab_strings w0 = vocab_strings (interned (md_cui r) w) /\
    tokens (doc w0) = tokens (doc w) /\
    exists lines, stdout w0 = stdout w ++ lines /\
      (length lines <= 1)%nat /\
      Forall (fun l => is_ValueError (ln_exn l) = true) lines).
  { intros w0 H1 H2 H3 H4. repeat split; auto.
    exists []. rewrite app_nil_r. cbn. auto. }
  rewrite materialize_eq. cbv zeta.
  destruct (span_of (doc w) r) as [[sp|]|e];
    [|intros [= <- <-]; now apply Hnil..].
  unfold bind at 1. unfold underscore_setattr at 1. cbv beta.
  change (span_extensions (interned (md_cui r) w)) with (span_extensions w).
  destruct (span_extensions w !! "similarity"%string);
    [|intros [= <- <-]; now apply Hnil].
  unfold bind at 1. unfold underscore_setattr at 1. cbv beta.
  cbn [span_extensions set_doc].
  change (span_extensions (interned (md_cui r) w)) with (span_extensions w).
  destruct (span_extensions w !! "semtypes"%string);
    [|intros [= <- <-]; now apply Hnil].
  match goal with
  | |- try_except_ValueError _ _ ?w2 = _ -> _ =>
      change (try_except_ValueError
                (old <~ Doc_get_ents ;; Doc_set_ents (old ++ [sp]))
                (fun e => print_conflict e sp) w2)
        with (commit sp w2);
      pose proof (commit_frame sp w2) as H
  end.
  intros E. rewrite E in H.
  cbn in H. destruct H as (H1 & H2 & H3 & _ & H5).
  split; [exact H1|]. split; [exact H2|]. split; [exact H3|]. exact H5.
Qed.

(** The entity collection after one record: unchanged, or the decoded
    tags of the old entities and the new span, which the check let
    through. *)
Lemma materialize_ents r w w' res :
  materialize r w = (w', res) ->
  Forall (in_range (doc w)) (ents (doc w)) ->
  ents (doc w') = ents (doc w) \/
  exists sp s,
    span_of (doc w) r = Ok (Some sp) /\
    check_spans
      (filter (fun x => labelled x = true) (ents (doc w) ++ [sp])) ∅
      = Ok s /\
    ents (doc w') = decode_ents (ents (doc w) ++ [sp]) /\
    res = Ok tt.
Proof.
  intros E Hr. rewrite materialize_eq in E. cbv zeta in E.
  destruct (span_of (doc w) r) as [[sp|]|e] eqn:Hsp;
    [|injection E as <- <-; now left..].
  revert E. unfold bind at 1. unfold underscore_setattr at 1. cbv beta.
  change (span_extensions (interned (md_cui r) w)) with (span_extensions w).
  destruct (span_extensions w !! "similarity"%string);
    [|intros [= <- <-]; now left].
  unfold bind at 1. unfold underscore_setattr at 1. cbv beta.
  cbn [span_extensions set_doc].
  change (span_extensions (interned (md_cui r) w)) with (span_extensions w).
  destruct (span_extensions w !! "semtypes"%string);
    [|intros [= <- <-]; now left].
  match goal with
  | |- try_except_ValueError _ _ ?w2 = _ -> _ =>
      change (try_except_ValueError
                (old <~ Doc_get_ents ;; Doc_set_ents (old ++ [sp]))
                (fun e => print_conflict e sp) w2)
        with (commit sp w2);
      rewrite (commit_wf sp w2)
  end.
  - cbn [doc set_doc ents set_user_data].
    change (ents (doc (interned (md_cui r) w))) with (ents (doc w)).
    destruct (check_spans
                (filter (fun x => labelled x = true) (ents (doc w) ++ [sp]))
                ∅) as [s|e] eqn:C.
    + intros [= <- <-]. right. exists sp, s. auto.
    + intros [= <- <-]. now left.
  - exact Hr.
  - unfold span_of in Hsp. apply char_span_inv in Hsp.
    destruct Hsp as (? & ? & _ & _ & _ & _ & _ & _ & H). exact H.
Qed.

Lemma Doc_wf_ext d d' :
  tokens d' = tokens d -> ents d' = ents d -> Doc_wf d -> Doc_wf d'.
Proof.
  unfold Doc_wf, in_range. intros -> ->. auto.
Qed.

Lemma Doc_wf_in_range d : Doc_wf d -> Forall (in_range d) (ents d).
Proof.
  intros [H _]. eapply Forall_impl; [exact H|]. now intros sp [_ ?].
Qed.

Lemma Doc_wf_entities d :
  Doc_wf d -> Forall (fun x => is_entity x = true) (ents d).
Proof.
  intros [H _]. eapply Forall_impl; [exact H|]. now intros sp [? _].
Qed.

Lemma labelled_true sp : labelled sp = true <-> sp_label sp <> 0.
Proof.
  unfold labelled. rewrite negb_true_iff, Z.eqb_neq. reflexivity.
Qed.

(** The guarded assignment of a span with a label. *)
Lemma commit_labelled sp w :
  Doc_wf (doc w) -> in_range (doc w) sp -> sp_label sp <> 0 ->
  commit sp w =
  match check_spans (ents (doc w) ++ [sp]) ∅ with
  | Raise e => (write_stdout (mkLine e sp (sp_start sp) (sp_end sp)) w, Ok tt)
  | Ok _ =>
      (set_doc (set_ents (decode_ents (ents (doc w) ++ [sp])) (doc w)) w,
       Ok tt)
  end.
Proof.
  intros Hwf Hin Hl. apply labelled_true in Hl.
  rewrite commit_wf; [|exact (Doc_wf_in_range _ Hwf)|exact Hin].
  rewrite (labelled_ents_app _ _ (Doc_wf_entities _ Hwf)). now rewrite Hl.
Qed.

(** The guarded assignment of a span without a label: the setter drops
    the span and writes the entities back. *)
Lemma commit_unlabelled sp w :
  Doc_wf (doc w) -> in_range (doc w) sp -> sp_label sp = 0 ->
  commit sp w =
  (set_doc (set_ents (decode_ents (ents (doc w) ++ [sp])) (doc w)) w, Ok tt).
Proof.
  intros Hwf Hin Hl.
  assert (Hf : labelled sp = false).
  { unfold labelled. now rewrite Hl. }
  rewrite commit_wf; [|exact (Doc_wf_in_range _ Hwf)|exact Hin].
  rewrite (labelled_ents_app _ _ (Doc_wf_entities _ Hwf)), Hf, app_nil_r.
  rewrite check_spans_fresh; [reflexivity|exact (proj2 Hwf)|set_solver].
Qed.

(** Well-formedness is kept, and no entity is ever lost. *)
Lemma materialize_wf r w w' res :
  materialize r w = (w', res) ->
  Doc_wf (doc w) ->
  Doc_wf (doc w') /\ (forall sp, sp ∈ ents (doc w) -> sp ∈ ents (doc w')).
Proof.
  intros E Hwf.
  pose proof (materialize_frame _ _ _ _ E) as (_ & _ & Htok & _).
  destruct (materialize_ents _ _ _ _ E (Doc_wf_in_range _ Hwf))
    as [He|(sp & s & Hsp & C & He & _)].
  - split; [now apply (Doc_wf_ext (doc w))|]. now rewrite He.
  - apply check_spans_Ok in C as (Hno & _ & _).
    apply no_overlap_decode in Hno. rewrite decode_ents_labelled in Hno.
    destruct Hwf as [Hall Hno0]. rewrite Forall_forall in Hall.
    unfold span_of in Hsp. apply char_span_inv in Hsp.
    destruct Hsp as (tf & tl & _ & _ & _ & _ & _ & _ & Hin).
    split; [split|].
    + rewrite He. apply Forall_forall. intros x Hx.
      apply elem_of_decode_ents in Hx as [Hx Hent]. split; [exact Hent|].
      unfold in_range. rewrite Htok.
      apply elem_of_app in Hx as [Hx|Hx].
      * now apply Hall.
      * apply list_elem_of_singleton in Hx as ->. exact Hin.
    + rewrite He. exact Hno.
    + intros y Hy. rewrite He. apply elem_of_decode_ents.
      split; [apply elem_of_app; now left|]. now apply Hall.
Qed.

(** ** The loops of [__call__] *)

Lemma for_each_app {A} (l1 l2 : list A) (body : A -> M World unit) w :
  for_each (l1 ++ l2) body w =
  match for_each l1 body w with
  | (w1, Ok _) => for_each l2 body w1
  | (w1, Raise e) => (w1, Raise e)
  end.
Proof.
  revert w. induction l1 as [|x l1 IH]; intros w; cbn; [reflexivity|].
  unfold bind. destruct (body x w) as [w1 [[]|e]]; [apply IH|reflexivity].
Qed.

(** The nested loops visit the records of all groups in order. *)
Lemma for_each_concat {A} (ls : list (list A)) (body : A -> M World unit) w :
  for_each ls (fun l => for_each l body) w = for_each (concat ls) body w.
Proof.
  revert w. induction ls as [|l ls IH]; intros w; cbn; [reflexivity|].
  rewrite for_each_app. unfold bind.
  destruct (for_each l body w) as [w1 [[]|e]]; [apply IH|reflexivity].
Qed.

Lemma call_eq self w :
  __call__ self w =
  match for_each (records self w) materialize w with
  | (w', Ok _) => (w', Ok (doc w'))
  | (w', Raise e) => (w', Raise e)
  end.
Proof.
  unfold __call__, records. unfold bind at 1. unfold get at 1.
  unfold bind at 1. rewrite for_each_concat.
  destruct (for_each _ materialize w) as [w' [[]|e]]; reflexivity.
Qed.

(** A property kept by every record is kept by the loop, however the
    loop ends. *)
Lemma for_each_invariant (P : World -> Prop) l w w' res :
  (forall r w1 w2 res1, materialize r w1 = (w2, res1) -> P w1 -> P w2) ->
  for_each l materialize w = (w', res) -> P w -> P w'.
Proof.
  intros Hstep. revert w. induction l as [|r l IH]; intros w; cbn.
  - now intros [= <- <-].
  - unfold bind. destruct (materialize r w) as [w1 [[]|e]] eqn:E.
    + intros H Hw. eapply IH; [exact H|]. eapply Hstep; eauto.
    + intros [= <- <-] Hw. eapply Hstep; eauto.
Qed.

Lemma call_invariant (P : World -> Prop) self w w' res :
  (forall r w1 w2 res1, materialize r w1 = (w2, res1) -> P w1 -> P w2) ->
  __call__ self w = (w', res) -> P w -> P w'.
Proof.
  intros Hstep. rewrite call_eq.
  destruct (for_each (records self w) materialize w) as [w1 [[]|e]] eqn:E;
    intros [= <- <-]; eapply for_each_invariant; eauto.
Qed.

Lemma no_overlap_elem l a b :
  no_overlap l -> a ∈ l -> b ∈ l -> a = b \/ tokens_disjoint a b.
Proof.
  induction l as [|x l IH]; cbn; [intros _ H; inversion H|].
  intros [Hx Hno] Ha Hb. rewrite Forall_forall in Hx.
  apply elem_of_cons in Ha as [->|Ha]; apply elem_of_cons in Hb as [->|Hb].
  - now left.
  - right. auto.
  - right. apply tokens_disjoint_sym. auto.
  - auto.
Qed.

(** C4: after [__call__], whatever the policy flags of the component and
    however the call ends, no two entities of the document have token
    ranges that are neither identical nor disjoint. *)
Theorem C4_no_partial_overlap self w w' res :
  Doc_wf (doc w) ->
  __call__ self w = (w', res) ->
  forall a b, a ∈ ents (doc w') -> b ∈ ents (doc w') -> ~ partial_overlap a b.
Proof.
  intros Hwf Hcall a b Ha Hb [Hne (i & Hia & Hib)].
  assert (Hwf' : Doc_wf (doc w')).
  { eapply (call_invariant (fun w => Doc_wf (doc w))); eauto.
    intros r w1 w2 res1 E H. now apply (materialize_wf _ _ _ _ E). }
  destruct Hwf' as [_ Hno].
  destruct (no_overlap_elem _ _ _ Hno Ha Hb) as [->|Hd]; [now apply Hne|].
  exact (Hd i Hia Hib).
Qed.

Lemma C4_no_partial_overlap_witness :
  Doc_wf (doc Example.world0) /\
  ~ partial_overlap (mkSpan 0 1 (hash_string "C0030705"))
      (mkSpan 2 4 (hash_string "C0011849")).
Proof.
  assert (Hwf : Doc_wf (doc Example.world0)).
  { split; [constructor|exact I]. }
  split; [exact Hwf|].
  pose (self := Example.component false
                  [[Example.diabetes_mellitus; Example.diabetes_mellitus'];
                   [Example.patient]; [Example.diabetes]]).
  apply (C4_no_partial_overlap self Example.world0
           (__call__ self Example.world0).1 (__call__ self Example.world0).2
           Hwf (surjective_pairing _)).
  - vm_compute. apply elem_of_cons. left. reflexivity.
  - vm_compute. apply elem_of_cons. right. apply elem_of_cons. left.
    reflexivity.
Defined.

(** ** More on one record *)

Lemma span_of_tokens d d' r :
  tokens d' = tokens d -> span_of d' r = span_of d r.
Proof.
  intros H. unfold span_of, char_span, Span_new. now rewrite H.
Qed.

Lemma claim_tokens_raised toks seen j :
  NoDup toks ->
  claim_tokens toks seen = Raise (ValueError_E1010 j) ->
  j ∈ toks /\ j ∈ seen.
Proof.
  revert seen. induction toks as [|i toks IH]; intros seen Hnd; cbn;
    [discriminate|].
  apply NoDup_cons in Hnd as [Hi Hnd].
  destruct (decide (i ∈ seen)) as [Hin|Hnin].
  - intros [= <-]. split; [left|exact Hin].
  - intros H. apply IH in H as [H1 H2]; [|exact Hnd].
    split; [now right|].
    apply elem_of_union in H2 as [H2|H2]; [|exact H2].
    apply elem_of_singleton in H2 as ->. contradiction.
Qed.

Lemma claim_tokens_first start n seen j :
  claim_tokens (seq start n) seen = Raise (ValueError_E1010 j) ->
  (start <= j < start + n)%nat /\ j ∈ seen /\
  forall k, (start <= k < j)%nat -> k ∉ seen.
Proof.
  revert start seen. induction n as [|n IH]; intros start seen; cbn;
    [discriminate|].
  destruct (decide (start ∈ seen)) as [Hin|Hnin].
  - intros [= <-]. split; [lia|]. split; [exact Hin|]. intros k Hk. lia.
  - intros H. apply IH in H as (H1 & H2 & H3).
    split; [lia|]. split.
    + apply elem_of_union in H2 as [H2|H2]; [|exact H2].
      apply elem_of_singleton in H2. lia.
    + intros k Hk Hks. destruct (decide (k = start)) as [->|Hne];
        [contradiction|].
      apply (H3 k); [lia|]. apply elem_of_union. now right.
Qed.

Lemma claim_tokens_first_shared es sp j :
  claim_tokens (span_tokens sp) (covered es ∪ ∅)
    = Raise (ValueError_E1010 j) ->
  first_shared es sp j.
Proof.
  unfold span_tokens. intros H.
  apply claim_tokens_first in H as (H1 & H2 & H3).
  assert (Hc : forall k, k ∈ covered es ∪ ∅ <->
                         exists x, x ∈ es /\ k ∈ span_tokens x).
  { intros k. rewrite <- elem_of_covered. set_solver. }
  split; [apply elem_of_span_tokens; lia|]. split; [now apply Hc|].
  intros k x Hk Hx Hkx. apply elem_of_span_tokens in Hk.
  destruct (le_lt_dec j k) as [|Hlt]; [assumption|].
  exfalso. apply (H3 k); [lia|]. apply Hc. eauto.
Qed.

(** What a record whose offsets give a span does, the extensions being
    registered: both attributes are written, and the assignment to
    [doc.ents] is refused and printed, the span having a label and
    sharing a token with an entity, or accepted, the span having no
    label or sharing no token with any entity. *)
Lemma materialize_outcome r w sp :
  extensions_registered w -> Doc_wf (doc w) ->
  span_of (doc w) r = Ok (Some sp) ->
  (exists j sp0,
     sp_label sp <> 0 /\
     sp0 ∈ ents (doc w) /\ j ∈ span_tokens sp0 /\ j ∈ span_tokens sp /\
     first_shared (ents (doc w)) sp j /\
     materialize r w =
       (write_stdout
          (mkLine (ValueError_E1010 j) sp (sp_start sp) (sp_end sp))
          (annotated r sp (interned (md_cui r) w)), Ok tt)) \/
  ((sp_label sp = 0 \/ forall x, x ∈ ents (doc w) -> tokens_disjoint x sp) /\
   materialize r w =
     (set_doc
        (set_ents (decode_ents (ents (doc w) ++ [sp]))
           (doc (annotated r sp (interned (md_cui r) w))))
        (annotated r sp (interned (md_cui r) w)), Ok tt)).
Proof.
  intros Hext Hwf Hsp.
  rewrite (materialize_aligned _ _ _ Hsp Hext).
  pose proof Hsp as Hin. unfold span_of in Hin. apply char_span_inv in Hin.
  destruct Hin as (tf & tl & _ & _ & _ & _ & _ & _ & Hin).
  destruct (decide (sp_label sp = 0)) as [Hl|Hl].
  - right. split; [now left|].
    rewrite commit_unlabelled; [reflexivity|exact Hwf|exact Hin|exact Hl].
  - rewrite commit_labelled; [|exact Hwf|exact Hin|exact Hl].
    change (ents (doc (annotated r sp (interned (md_cui r) w))))
      with (ents (doc w)).
    rewrite check_spans_app.
    rewrite check_spans_fresh; [|exact (proj2 Hwf)|set_solver].
    destruct (claim_tokens (span_tokens sp) (covered (ents (doc w)) ∪ ∅))
      as [s|e] eqn:C.
    + right. split; [right|reflexivity].
      apply claim_tokens_Ok in C as [C _].
      intros x Hx i Hix Hisp. apply (C i Hisp).
      apply elem_of_union. left. apply elem_of_covered. eauto.
    + left. destruct (claim_tokens_raises _ _ _ C) as [j ->].
      pose proof (claim_tokens_first_shared _ _ _ C) as Hfirst.
      destruct Hfirst as (Hj & (sp0 & H0 & Hj0) & Hmin).
      exists j, sp0. repeat split; auto.
      exists sp0. auto.
Qed.

(** What a record that is processed to the end has done: its offsets
    gave a span, the extensions were registered, and the assignment to
    [doc.ents] was refused and printed, or accepted. *)
Lemma materialize_Ok r w w' :
  Doc_wf (doc w) ->
  materialize r w = (w', Ok tt) ->
  exists sp,
    span_of (doc w) r = Ok (Some sp) /\
    extensions_registered w /\
    ((exists j sp0,
        sp_label sp <> 0 /\
        sp0 ∈ ents (doc w) /\ j ∈ span_tokens sp0 /\ j ∈ span_tokens sp /\
        first_shared (ents (doc w)) sp j /\
        w' = write_stdout
               (mkLine (ValueError_E1010 j) sp (sp_start sp) (sp_end sp))
               (annotated r sp (interned (md_cui r) w))) \/
     ((sp_label sp = 0 \/
       forall x, x ∈ ents (doc w) -> tokens_disjoint x sp) /\
      w' = set_doc
             (set_ents (decode_ents (ents (doc w) ++ [sp]))
                (doc (annotated r sp (interned (md_cui r) w))))
             (annotated r sp (interned (md_cui r) w)))).
Proof.
  intros Hwf E. pose proof E as E0.
  rewrite materialize_eq in E. cbv zeta in E.
  destruct (span_of (doc w) r) as [[sp|]|e] eqn:Hsp; try discriminate.
  exists sp. split; [reflexivity|].
  assert (Hext : extensions_registered w).
  { revert E. unfold bind at 1. unfold underscore_setattr at 1. cbv beta.
    change (span_extensions (interned (md_cui r) w))
      with (span_extensions w).
    destruct (span_extensions w !! "similarity"%string) as [v1|] eqn:H1;
      [|discriminate].
    unfold bind at 1. unfold underscore_setattr at 1. cbv beta.
    cbn [span_extensions set_doc].
    change (span_extensions (interned (md_cui r) w))
      with (span_extensions w).
    destruct (span_extensions w !! "semtypes"%string) as [v2|] eqn:H2;
      [|discriminate].
    intros _. split; eauto. }
  split; [exact Hext|].
  destruct (materialize_outcome r w sp Hext Hwf Hsp)
    as [(j & sp0 & Hl & H0 & Hj0 & Hj & Hfirst & E1)|[Hacc E1]];
    rewrite E1 in E0; injection E0 as <-.
  - left. exists j, sp0. auto 10.
  - right. auto.
Qed.

Lemma materialize_aligned_Ok r w sp :
  extensions_registered w -> Doc_wf (doc w) ->
  span_of (doc w) r = Ok (Some sp) ->
  exists w', materialize r w = (w', Ok tt).
Proof.
  intros Hext Hwf Hsp.
  destruct (materialize_outcome r w sp Hext Hwf Hsp)
    as [(j & sp0 & _ & _ & _ & _ & _ & E)|[_ E]]; eauto.
Qed.

Lemma materialize_registered r w w' res :
  materialize r w = (w', res) ->
  extensions_registered w -> extensions_registered w'.
Proof.
  intros E H. unfold extensions_registered.
  destruct (materialize_frame _ _ _ _ E) as (-> & _). exact H.
Qed.

Lemma materialize_tokens r w w' res :
  materialize r w = (w', res) -> tokens (doc w') = tokens (doc w).
Proof.
  intros E. now destruct (materialize_frame _ _ _ _ E) as (_ & _ & H & _).
Qed.

Lemma for_each_tokens l w w' res :
  for_each l materialize w = (w', res) -> tokens (doc w') = tokens (doc w).
Proof.
  intros E.
  apply (for_each_invariant (fun w1 => tokens (doc w1) = tokens (doc w))
           l w w' res); [|exact E|reflexivity].
  intros r w1 w2 res1 E1 H. rewrite <- H.
  exact (materialize_tokens _ _ _ _ E1).
Qed.

(** ** A record whose span shares a token with an entity *)

Lemma span_tokens_cons sp :
  (sp_start sp < sp_end sp)%nat ->
  exists rest, span_tokens sp = sp_start sp :: rest.
Proof.
  intros H. unfold span_tokens.
  destruct (sp_end sp - sp_start sp)%nat as [|n] eqn:E; [lia|].
  cbn. eauto.
Qed.

Lemma annotated_ents r sp w : ents (doc (annotated r sp w)) = ents (doc w).
Proof. reflexivity. Qed.

Lemma annotated_stdout r sp w : stdout (annotated r sp w) = stdout w.
Proof. reflexivity. Qed.


(** The same, with the reported token, when the span starts at a token
    that an entity covers. *)
Lemma materialize_conflict_at_start r w sp sp0 :
  extensions_registered w ->
  Doc_wf (doc w) ->
  span_of (doc w) r = Ok (Some sp) ->
  sp_label sp <> 0 ->
  sp0 ∈ ents (doc w) -> sp_start sp ∈ span_tokens sp0 ->
  (sp_start sp < sp_end sp)%nat ->
  materialize r w =
  (write_stdout
     (mkLine (ValueError_E1010 (sp_start sp)) sp (sp_start sp) (sp_end sp))
     (annotated r sp (interned (md_cui r) w)), Ok tt).
Proof.
  intros Hext Hwf Hsp Hl H0 Hi0 Hne.
  rewrite (materialize_aligned _ _ _ Hsp Hext).
  pose proof Hsp as Hin. unfold span_of in Hin. apply char_span_inv in Hin.
  destruct Hin as (tf & tl & _ & _ & _ & _ & _ & _ & Hin).
  rewrite commit_labelled; [|exact Hwf|exact Hin|exact Hl].
  change (ents (doc (annotated r sp (interned (md_cui r) w))))
    with (ents (doc w)).
  rewrite check_spans_app.
  rewrite check_spans_fresh; [|exact (proj2 Hwf)|set_solver].
  destruct (span_tokens_cons sp Hne) as [rest ->]. cbn.
  destruct (decide (sp_start sp ∈ covered (ents (doc w)) ∪ ∅)) as [_|Hn];
    [reflexivity|].
  exfalso. apply Hn. apply elem_of_union. left. apply elem_of_covered. eauto.
Qed.

Lemma call_wf self w w' res :
  Doc_wf (doc w) -> __call__ self w = (w', res) -> Doc_wf (doc w').
Proof.
  intros Hwf Hcall.
  eapply (call_invariant (fun w => Doc_wf (doc w))); eauto.
  intros r w1 w2 res1 E H. now apply (materialize_wf _ _ _ _ E).
Qed.

(** Entities are never lost while the records are processed. *)
Lemma for_each_ents_kept l w w' res :
  Doc_wf (doc w) ->
  for_each l materialize w = (w', res) ->
  forall x, x ∈ ents (doc w) -> x ∈ ents (doc w').
Proof.
  intros Hwf E x Hx.
  apply (for_each_invariant
           (fun w1 => Doc_wf (doc w1) /\ x ∈ ents (doc w1)) l w w' res);
    [|exact E|auto].
  intros r w1 w2 res1 E1 [H1 H2].
  destruct (materialize_wf _ _ _ _ E1 H1) as [H3 H4]. auto.
Qed.

Lemma for_each_registered l w w' res :
  for_each l materialize w = (w', res) ->
  extensions_registered w -> extensions_registered w'.
Proof.
  apply (for_each_invariant extensions_registered).
  intros r w1 w2 res1 E H. unfold extensions_registered.
  destruct (materialize_frame _ _ _ _ E) as (-> & _). exact H.
Qed.

Lemma for_each_wf l w w' res :
  for_each l materialize w = (w', res) -> Doc_wf (doc w) -> Doc_wf (doc w').
Proof.
  apply (for_each_invariant (fun w => Doc_wf (doc w))).
  intros r w1 w2 res1 E H. now apply (materialize_wf _ _ _ _ E).
Qed.

(** C2, as the code has it: when a call gets to a record whose span
    has a label and partially overlaps an entity of the document, the
    [doc.ents] setter refuses the span; the [ValueError] is caught and
    printed to standard output, naming the first token of the span that
    an entity has, the entities are left as they were, the call goes on
    with the remaining records, and when the call ends every entity
    committed before the conflict is still on the document and the
    candidate is not. *)
Theorem C2_partial_overlap_printed self w pre r post w1 sp sp0 :
  extensions_registered w ->
  Doc_wf (doc w) ->
  records self w = pre ++ r :: post ->
  for_each pre materialize w = (w1, Ok tt) ->
  span_of (doc w1) r = Ok (Some sp) ->
  sp_label sp <> 0 ->
  sp0 ∈ ents (doc w1) ->
  partial_overlap sp sp0 ->
  exists w2 j,
    materialize r w1 = (w2, Ok tt) /\
    ents (doc w2) = ents (doc w1) /\
    stdout w2 =
      stdout w1 ++
      [mkLine (ValueError_E1010 j) sp (sp_start sp) (sp_end sp)] /\
    first_shared (ents (doc w1)) sp j /\
    __call__ self w =
      match for_each post materialize w2 with
      | (w', Ok _) => (w', Ok (doc w'))
      | (w', Raise e) => (w', Raise e)
      end /\
    (forall x, x ∈ ents (doc w1) -> x ∈ ents (doc (__call__ self w).1)) /\
    sp ∉ ents (doc (__call__ self w).1).
Proof.
  intros Hext Hwf Hrec Hpre Hsp Hl H0 [Hneq (i & Hi & Hi0)].
  pose proof (for_each_registered _ _ _ _ Hpre Hext) as Hext1.
  pose proof (for_each_wf _ _ _ _ Hpre Hwf) as Hwf1.
  destruct (materialize_outcome r w1 sp Hext1 Hwf1 Hsp)
    as [(j & sp1 & _ & _ & _ & _ & Hfirst & E)|[[Hz|Hd] _]];
    [|contradiction|exfalso; exact (Hd sp0 H0 i Hi0 Hi)].
  eexists _, j. split; [exact E|].
  split; [reflexivity|]. split; [reflexivity|]. split; [exact Hfirst|].
  assert (Hcall : __call__ self w =
    match for_each post materialize
            (write_stdout
               (mkLine (ValueError_E1010 j) sp (sp_start sp) (sp_end sp))
               (annotated r sp (interned (md_cui r) w1))) with
    | (w', Ok _) => (w', Ok (doc w'))
    | (w', Raise e) => (w', Raise e)
    end).
  { rewrite call_eq, Hrec, for_each_app, Hpre. cbn. unfold bind.
    now rewrite E. }
  split; [exact Hcall|].
  assert (Hkept : forall x, x ∈ ents (doc w1) ->
                            x ∈ ents (doc (__call__ self w).1)).
  { intros x Hx. rewrite Hcall.
    destruct (for_each post materialize _) as [w' res] eqn:Epost.
    assert (x ∈ ents (doc w')).
    { eapply for_each_ents_kept; [|exact Epost|exact Hx].
      apply (Doc_wf_ext (doc w1)); auto. }
    now destruct res as [[]|e]. }
  split; [exact Hkept|].
  intros Hin.
  assert (Hwf' : Doc_wf (doc (__call__ self w).1)).
  { eapply call_wf; [exact Hwf|apply surjective_pairing]. }
  destruct Hwf' as [_ Hno].
  destruct (no_overlap_elem _ _ _ Hno Hin (Hkept _ H0)) as [->|Hd];
    [now apply Hneq|].
  exact (Hd i Hi Hi0).
Qed.

Lemma world0_registered : extensions_registered Example.world0.
Proof. split; eexists; vm_compute; reflexivity. Qed.

Lemma world0_wf : Doc_wf (doc Example.world0).
Proof. split; [constructor|exact I]. Qed.

Lemma after_first_call_wf : Doc_wf (doc after_first_call).
Proof.
  eapply call_wf; [exact world0_wf|]. unfold after_first_call.
  apply surjective_pairing.
Qed.

Lemma after_first_call_registered : extensions_registered after_first_call.
Proof. split; eexists; vm_compute; reflexivity. Qed.

Lemma C2_partial_overlap_printed_witness :
  extensions_registered Example.world0 /\
  Doc_wf (doc Example.world0) /\
  records overlap_component Example.world0 =
    [Example.diabetes_mellitus] ++ Example.diabetes :: [Example.patient] /\
  for_each [Example.diabetes_mellitus] materialize Example.world0 =
    (after_first_record, Ok tt) /\
  span_of (doc after_first_record) Example.diabetes
    = Ok (Some span_diabetes) /\
  sp_label span_diabetes <> 0 /\
  span_diabetes_mellitus ∈ ents (doc after_first_record) /\
  partial_overlap span_diabetes span_diabetes_mellitus /\
  exists w2 j,
    materialize Example.diabetes after_first_record = (w2, Ok tt) /\
    ents (doc w2) = ents (doc after_first_record) /\
    stdout w2 =
      stdout after_first_record ++
      [mkLine (ValueError_E1010 j) span_diabetes
         (sp_start span_diabetes) (sp_end span_diabetes)] /\
    first_shared (ents (doc after_first_record)) span_diabetes j /\
    __call__ overlap_component Example.world0 =
      match for_each [Example.patient] materialize w2 with
      | (w', Ok _) => (w', Ok (doc w'))
      | (w', Raise e) => (w', Raise e)
      end /\
    (forall x, x ∈ ents (doc after_first_record) ->
       x ∈ ents (doc (__call__ overlap_component Example.world0).1)) /\
    span_diabetes ∉ ents (doc (__call__ overlap_component Example.world0).1).
Proof.
  assert (H1 : records overlap_component Example.world0 =
               [Example.diabetes_mellitus] ++
               Example.diabetes :: [Example.patient]) by reflexivity.
  assert (H2 : for_each [Example.diabetes_mellitus] materialize Example.world0
               = (after_first_record, Ok tt)) by (vm_compute; reflexivity).
  assert (H3 : span_of (doc after_first_record) Example.diabetes
               = Ok (Some span_diabetes)) by (vm_compute; reflexivity).
  assert (H4 : sp_label span_diabetes <> 0) by (vm_compute; discriminate).
  assert (H5 : span_diabetes_mellitus ∈ ents (doc after_first_record)).
  { vm_compute. apply elem_of_cons. left. reflexivity. }
  assert (H6 : partial_overlap span_diabetes span_diabetes_mellitus).
  { split; [cbn; congruence|]. exists 2%nat.
    split; apply elem_of_span_tokens; cbn; lia. }
  split; [exact world0_registered|]. split; [exact world0_wf|].
  split; [exact H1|]. split; [exact H2|]. split; [exact H3|].
  split; [exact H4|]. split; [exact H5|]. split; [exact H6|].
  exact (C2_partial_overlap_printed overlap_component Example.world0
           [Example.diabetes_mellitus] Example.diabetes [Example.patient]
           after_first_record span_diabetes span_diabetes_mellitus
           world0_registered world0_wf H1 H2 H3 H4 H5 H6).
Defined.

(** C2, the report: the caller is handed nothing about the conflict.  A
    second call on the document whose engine yields the partially
    overlapping "diabetes" and one whose engine yields nothing return
    the same document and leave the same vocabulary; only standard
    output tells them apart. *)
Lemma C2_conflict_not_handed_to_caller :
  span_diabetes_mellitus ∈ ents (doc after_first_call) /\
  span_of (doc after_first_call) Example.diabetes
    = Ok (Some span_diabetes) /\
  partial_overlap span_diabetes span_diabetes_mellitus /\
  second_call_conflict.2 = second_call_nothing.2 /\
  doc second_call_conflict.1 = doc second_call_nothing.1 /\
  vocab_strings second_call_conflict.1
    = vocab_strings second_call_nothing.1 /\
  stdout second_call_nothing.1 = stdout after_first_call /\
  stdout second_call_conflict.1 =
    stdout after_first_call ++
    [mkLine (ValueError_E1010 2) span_diabetes 2 3].
Proof.
  split.
  { vm_compute. apply elem_of_cons. left. reflexivity. }
  split; [vm_compute; reflexivity|]. split.
  { split; [cbn; congruence|]. exists 2%nat.
    split; apply elem_of_span_tokens; cbn; lia. }
  repeat split; vm_compute; reflexivity.
Qed.

(** C5, as the code has it: whatever the policy flags of the component,
    a record of the batch whose token range is that of an entity already
    on the document (committed earlier in the batch, say) is refused by
    the [doc.ents] setter; the [ValueError] is caught and printed, the
    call goes on with the remaining records, and when the call ends the
    first span is still the only entity with that token range. *)
Theorem C5_duplicate_refused self w pre r post w1 sp sp0 :
  extensions_registered w ->
  Doc_wf (doc w) ->
  records self w = pre ++ r :: post ->
  for_each pre materialize w = (w1, Ok tt) ->
  span_of (doc w1) r = Ok (Some sp) ->
  sp_label sp <> 0 ->
  sp0 ∈ ents (doc w1) ->
  sp_start sp0 = sp_start sp -> sp_end sp0 = sp_end sp ->
  exists w2,
    materialize r w1 = (w2, Ok tt) /\
    ents (doc w2) = ents (doc w1) /\
    stdout w2 =
      stdout w1 ++
      [mkLine (ValueError_E1010 (sp_start sp)) sp (sp_start sp) (sp_end sp)]
    /\
    __call__ self w =
      match for_each post materialize w2 with
      | (w', Ok _) => (w', Ok (doc w'))
      | (w', Raise e) => (w', Raise e)
      end /\
    sp0 ∈ ents (doc (__call__ self w).1) /\
    forall x, x ∈ ents (doc (__call__ self w).1) ->
      sp_start x = sp_start sp -> sp_end x = sp_end sp -> x = sp0.
Proof.
  intros Hext Hwf Hrec Hpre Hsp Hl H0 Hs He.
  pose proof (for_each_registered _ _ _ _ Hpre Hext) as Hext1.
  pose proof (for_each_wf _ _ _ _ Hpre Hwf) as Hwf1.
  assert (Hne : (sp_start sp0 < sp_end sp0)%nat).
  { destruct Hwf1 as [Hall _]. rewrite Forall_forall in Hall.
    destruct (Hall sp0 H0) as [Hent _]. unfold is_entity in Hent.
    apply andb_true_iff in Hent as [Hent _]. now apply Nat.ltb_lt in Hent. }
  assert (E : materialize r w1 =
    (write_stdout
       (mkLine (ValueError_E1010 (sp_start sp)) sp (sp_start sp) (sp_end sp))
       (annotated r sp (interned (md_cui r) w1)), Ok tt)).
  { apply (materialize_conflict_at_start r w1 sp sp0); auto.
    - apply elem_of_span_tokens. lia.
    - lia. }
  eexists. split; [exact E|]. split; [reflexivity|]. split; [reflexivity|].
  assert (Hcall : __call__ self w =
    match for_each post materialize
            (write_stdout
               (mkLine (ValueError_E1010 (sp_start sp)) sp (sp_start sp)
                  (sp_end sp))
               (annotated r sp (interned (md_cui r) w1))) with
    | (w', Ok _) => (w', Ok (doc w'))
    | (w', Raise e) => (w', Raise e)
    end).
  { rewrite call_eq, Hrec, for_each_app, Hpre. cbn. unfold bind.
    now rewrite E. }
  split; [exact Hcall|].
  assert (Hwf' : Doc_wf (doc (__call__ self w).1)).
  { eapply call_wf; [exact Hwf|apply surjective_pairing]. }
  assert (Hin : sp0 ∈ ents (doc (__call__ self w).1)).
  { rewrite Hcall.
    destruct (for_each post materialize _) as [w' res] eqn:Epost.
    assert (sp0 ∈ ents (doc w')).
    { eapply for_each_ents_kept; [|exact Epost|exact H0].
      apply (Doc_wf_ext (doc w1)); auto. }
    now destruct res as [[]|e]. }
  split; [exact Hin|].
  intros x Hx Hxs Hxe. destruct Hwf' as [_ Hno].
  destruct (no_overlap_elem _ _ _ Hno Hx Hin) as [->|Hd]; [reflexivity|].
  exfalso. apply (Hd (sp_start sp)); apply elem_of_span_tokens; lia.
Qed.

Lemma C5_duplicate_refused_witness :
  extensions_registered Example.world0 /\
  Doc_wf (doc Example.world0) /\
  records best_match_component Example.world0 =
    [Example.diabetes_mellitus] ++ Example.diabetes_mellitus' :: [] /\
  for_each [Example.diabetes_mellitus] materialize Example.world0 =
    (after_first_record, Ok tt) /\
  span_of (doc after_first_record) Example.diabetes_mellitus' =
    Ok (Some span_diabetes_mellitus') /\
  sp_label span_diabetes_mellitus' <> 0 /\
  span_diabetes_mellitus ∈ ents (doc after_first_record) /\
  sp_start span_diabetes_mellitus = sp_start span_diabetes_mellitus' /\
  sp_end span_diabetes_mellitus = sp_end span_diabetes_mellitus' /\
  exists w2,
    materialize Example.diabetes_mellitus' after_first_record = (w2, Ok tt) /\
    ents (doc w2) = ents (doc after_first_record) /\
    stdout w2 =
      stdout after_first_record ++
      [mkLine (ValueError_E1010 (sp_start span_diabetes_mellitus'))
         span_diabetes_mellitus' (sp_start span_diabetes_mellitus')
         (sp_end span_diabetes_mellitus')] /\
    __call__ best_match_component Example.world0 =
      match for_each [] materialize w2 with
      | (w', Ok _) => (w', Ok (doc w'))
      | (w', Raise e) => (w', Raise e)
      end /\
    span_diabetes_mellitus
      ∈ ents (doc (__call__ best_match_component Example.world0).1) /\
    forall x,
      x ∈ ents (doc (__call__ best_match_component Example.world0).1) ->
      sp_start x = sp_start span_diabetes_mellitus' ->
      sp_end x = sp_end span_diabetes_mellitus' ->
      x = span_diabetes_mellitus.
Proof.
  assert (H1 : records best_match_component Example.world0 =
               [Example.diabetes_mellitus] ++ Example.diabetes_mellitus' :: [])
    by reflexivity.
  assert (H2 : for_each [Example.diabetes_mellitus] materialize Example.world0
               = (after_first_record, Ok tt)) by (vm_compute; reflexivity).
  assert (H3 : span_of (doc after_first_record) Example.diabetes_mellitus'
               = Ok (Some span_diabetes_mellitus'))
    by (vm_compute; reflexivity).
  assert (H4 : span_diabetes_mellitus ∈ ents (doc after_first_record)).
  { vm_compute. apply elem_of_cons. left. reflexivity. }
  assert (H5 : sp_label span_diabetes_mellitus' <> 0)
    by (vm_compute; discriminate).
  split; [exact world0_registered|]. split; [exact world0_wf|].
  split; [exact H1|]. split; [exact H2|]. split; [exact H3|].
  split; [exact H5|].
  split; [exact H4|]. split; [reflexivity|]. split; [reflexivity|].
  exact (C5_duplicate_refused best_match_component Example.world0
           [Example.diabetes_mellitus] Example.diabetes_mellitus' []
           after_first_record span_diabetes_mellitus' span_diabetes_mellitus
           world0_registered world0_wf H1 H2 H3 H5 H4 eq_refl eq_refl).
Defined.

(** C5, the policy of returning all overlapping candidates
    ([best_match = False]): the second concept for "diabetes mellitus"
    is not inserted next to the first.  The call returns, the document
    has the first span as its only entity, and the refusal of the second
    is printed. *)
Lemma C5_duplicate_not_inserted :
  best_match all_matches_component = false /\
  span_of (doc Example.world0) Example.diabetes_mellitus
    = Ok (Some span_diabetes_mellitus) /\
  span_of (doc Example.world0) Example.diabetes_mellitus'
    = Ok (Some span_diabetes_mellitus') /\
  is_Ok (__call__ all_matches_component Example.world0).2 = true /\
  ents (doc (__call__ all_matches_component Example.world0).1)
    = [span_diabetes_mellitus] /\
  stdout (__call__ all_matches_component Example.world0).1
    = [mkLine (ValueError_E1010 2) span_diabetes_mellitus' 2 4].
Proof. repeat split; vm_compute; reflexivity. Qed.

(** ** Misaligned offsets *)

(** C1, at a batch whose first record starts inside the token
    "diabetes" and whose second record is the well-aligned "Patient":
    [char_span] gives [None], the assignment to [span._.similarity]
    raises [AttributeError], and the exception leaves [__call__].
    Nothing is printed, and the second record is never reached: its
    code is not interned and its span is not committed, although alone
    it would be. *)
Theorem C1_misaligned_record_aborts_call :
  span_of (doc Example.world0) Example.misaligned = Ok None /\
  (__call__ misaligned_component Example.world0).2
    = Raise (AttributeError_NoneType "_") /\
  stdout (__call__ misaligned_component Example.world0).1 = [] /\
  ents (doc (__call__ misaligned_component Example.world0).1) = [] /\
  StringStore.contains (md_cui Example.patient)
    (vocab_strings (__call__ misaligned_component Example.world0).1)
    = false /\
  ents (doc (__call__ (Example.component true [[Example.patient]])
               Example.world0).1)
    = [mkSpan 0 1 (label_of Example.patient)].
Proof. repeat split; vm_compute; reflexivity. Qed.

(** In general: a record for which [char_span] gives [None] ends the
    call with the [AttributeError], in the world where only its code
    has been interned. *)
Lemma misaligned_record_aborts self w pre r post w1 :
  records self w = pre ++ r :: post ->
  for_each pre materialize w = (w1, Ok tt) ->
  span_of (doc w1) r = Ok None ->
  __call__ self w =
    (interned (md_cui r) w1, Raise (AttributeError_NoneType "_")).
Proof.
  intros Hrec Hpre Hsp.
  rewrite call_eq, Hrec, for_each_app, Hpre. cbn. unfold bind.
  now rewrite (materialize_misaligned _ _ Hsp).
Qed.

(** ** What is returned and what is printed *)

Lemma for_each_stdout l w w' res :
  for_each l materialize w = (w', res) ->
  exists lines,
    stdout w' = stdout w ++ lines /\
    (length lines <= length l)%nat /\
    Forall (fun ln => is_ValueError (ln_exn ln) = true) lines.
Proof.
  revert w. induction l as [|r l IH]; intros w; cbn.
  - intros [= <- <-]. exists []. rewrite app_nil_r. cbn. auto.
  - unfold bind. destruct (materialize r w) as [w1 res1] eqn:E.
    destruct (materialize_frame _ _ _ _ E)
      as (_ & _ & _ & lines1 & H1 & H2 & H3).
    destruct res1 as [[]|e].
    + intros H. apply IH in H as (lines2 & H4 & H5 & H6).
      exists (lines1 ++ lines2). rewrite H4, H1, app_assoc.
      split; [reflexivity|]. rewrite length_app. split; [lia|].
      apply Forall_app. auto.
    + intros [= <- <-]. exists lines1. split; [exact H1|].
      split; [lia|exact H3].
Qed.

Lemma for_each_report d l w w' :
  tokens (doc w) = tokens d -> Doc_wf (doc w) ->
  for_each l materialize w = (w', Ok tt) ->
  exists lines,
    stdout w' = stdout w ++ lines /\
    batch_report d (ents (doc w)) l lines (ents (doc w')).
Proof.
  revert w. induction l as [|r l IH]; intros w Htok Hwf; cbn.
  - intros [= <-]. exists []. rewrite app_nil_r.
    split; [reflexivity|constructor].
  - unfold bind. destruct (materialize r w) as [w1 [[]|e]] eqn:E;
      [|discriminate].
    intros H.
    destruct (materialize_wf _ _ _ _ E Hwf) as [Hwf1 _].
    pose proof (materialize_tokens _ _ _ _ E) as Htok1.
    destruct (IH w1) as (lines & Hout & Hrep);
      [congruence|exact Hwf1|exact H|].
    destruct (materialize_Ok _ _ _ Hwf E)
      as (sp & Hsp & _ &
          [(j & sp0 & Hl & _ & _ & _ & Hfirst & ->)|[Hacc ->]]);
      rewrite (span_of_tokens d (doc w) r Htok) in Hsp.
    + exists (mkLine (ValueError_E1010 j) sp (sp_start sp) (sp_end sp)
                :: lines).
      split.
      * rewrite Hout. cbn. now rewrite <- app_assoc.
      * eapply report_refused; eauto.
    + exists lines. split; [exact Hout|].
      eapply report_accepted; eauto.
Qed.

Lemma first_shared_unique es sp j j' :
  first_shared es sp j -> first_shared es sp j' -> j = j'.
Proof.
  intros (H1 & (x & Hx & Hjx) & Hmin) (H1' & (x' & Hx' & Hjx') & Hmin').
  pose proof (Hmin j' x' H1' Hx' Hjx').
  pose proof (Hmin' j x H1 Hx Hjx). lia.
Qed.

(** The entities and the records leave no choice: there is one report. *)
Lemma batch_report_unique d es l lines1 es1 lines2 es2 :
  batch_report d es l lines1 es1 -> batch_report d es l lines2 es2 ->
  lines1 = lines2 /\ es1 = es2.
Proof.
  intros H1. revert lines2 es2.
  induction H1 as [es|es r l sp j lines es' Hsp Hl Hfirst H1 IH
                   |es r l sp lines es' Hsp Hacc H1 IH];
    intros lines2 es2 H2; inversion H2 as
      [es0|es0 r0 l0 sp2 j2 lines0 es0' Hsp2 Hl2 Hfirst2 H2'
       |es0 r0 l0 sp2 lines0 es0' Hsp2 Hacc2 H2']; subst.
  - auto.
  - assert (sp2 = sp) as -> by congruence.
    rewrite (first_shared_unique _ _ _ _ Hfirst2 Hfirst).
    destruct (IH _ _ H2') as [-> ->]. auto.
  - assert (sp2 = sp) as -> by congruence. exfalso.
    destruct Hfirst as (Hj & (x & Hx & Hjx) & _).
    destruct Hacc2 as [H0|Hd]; [contradiction|exact (Hd x Hx j Hjx Hj)].
  - assert (sp2 = sp) as -> by congruence. exfalso.
    destruct Hfirst2 as (Hj & (x & Hx & Hjx) & _).
    destruct Hacc as [H0|Hd]; [contradiction|exact (Hd x Hx j2 Hjx Hj)].
  - assert (sp2 = sp) as -> by congruence. exact (IH _ _ H2').
Qed.

(** C3, as the code has it: a call that returns hands back the mutated
    document and nothing else.  What the batch reports is printed, and
    exactly so: in the order of the records, one line for every record
    whose span has a label and shares a token with an entity of the
    document at that moment, the line naming the first shared token and
    the refused span, and no line for any other record, whose span
    joins the entities.  The entities and the records determine these
    lines.  So there is at most one line per record, each for a
    [ValueError] of the [doc.ents] setter. *)
Theorem C3_returns_document_only self w w' d :
  Doc_wf (doc w) ->
  __call__ self w = (w', Ok d) ->
  d = doc w' /\
  exists lines,
    stdout w' = stdout w ++ lines /\
    batch_report (doc w) (ents (doc w)) (records self w) lines (ents d) /\
    (forall lines' es',
       batch_report (doc w) (ents (doc w)) (records self w) lines' es' ->
       lines' = lines /\ es' = ents d) /\
    (length lines <= length (records self w))%nat /\
    Forall (fun ln => is_ValueError (ln_exn ln) = true) lines.
Proof.
  intros Hwf. rewrite call_eq.
  destruct (for_each (records self w) materialize w) as [w1 [[]|e]] eqn:E;
    [|discriminate].
  intros [= <- <-]. split; [reflexivity|].
  destruct (for_each_report (doc w) _ _ _ eq_refl Hwf E)
    as (lines & Hout & Hrep).
  destruct (for_each_stdout _ _ _ _ E) as (lines' & Hout' & Hlen & Hall).
  assert (lines' = lines) as ->.
  { rewrite Hout in Hout'. now apply app_inv_head in Hout'. }
  exists lines. split; [exact Hout|]. split; [exact Hrep|].
  split; [|auto].
  intros lines2 es2 H2. exact (batch_report_unique _ _ _ _ _ _ _ H2 Hrep).
Qed.

Lemma C3_returns_document_only_witness :
  Doc_wf (doc Example.world0) /\
  __call__ twice_component Example.world0 =
    ((__call__ twice_component Example.world0).1,
     Ok (doc (__call__ twice_component Example.world0).1)) /\
  doc (__call__ twice_component Example.world0).1 =
    doc (__call__ twice_component Example.world0).1 /\
  exists lines,
    stdout (__call__ twice_component Example.world0).1 =
      stdout Example.world0 ++ lines /\
    batch_report (doc Example.world0) (ents (doc Example.world0))
      (records twice_component Example.world0) lines
      (ents (doc (__call__ twice_component Example.world0).1)) /\
    (forall lines' es',
       batch_report (doc Example.world0) (ents (doc Example.world0))
         (records twice_component Example.world0) lines' es' ->
       lines' = lines /\
       es' = ents (doc (__call__ twice_component Example.world0).1)) /\
    (length lines <= length (records twice_component Example.world0))%nat /\
    Forall (fun ln => is_ValueError (ln_exn ln) = true) lines.
Proof.
  assert (H : __call__ twice_component Example.world0 =
    ((__call__ twice_component Example.world0).1,
     Ok (doc (__call__ twice_component Example.world0).1)))
    by (vm_compute; reflexivity).
  split; [exact world0_wf|]. split; [exact H|].
  exact (C3_returns_document_only twice_component Example.world0 _ _
           world0_wf H).
Defined.

(** C3, the returned value: a batch in which the second record is
    refused and a batch without that record return the same document
    and leave the same vocabulary.  The refusal is on standard output
    only. *)
Lemma C3_refusal_only_printed :
  (__call__ twice_component Example.world0).2
    = (__call__ once_component Example.world0).2 /\
  is_Ok (__call__ twice_component Example.world0).2 = true /\
  doc (__call__ twice_component Example.world0).1
    = doc (__call__ once_component Example.world0).1 /\
  vocab_strings (__call__ twice_component Example.world0).1
    = vocab_strings (__call__ once_component Example.world0).1 /\
  stdout (__call__ once_component Example.world0).1 = [] /\
  stdout (__call__ twice_component Example.world0).1
    = [mkLine (ValueError_E1010 2) span_diabetes_mellitus 2 4].
Proof. repeat split; vm_compute; reflexivity. Qed.

(** ** The registry *)

Lemma contains_add_same s store :
  StringStore.contains s (StringStore.add s store).2 = true.
Proof.
  unfold StringStore.contains, StringStore.add.
  destruct (decide (s = EmptyString)) as [|Hne]; [reflexivity|].
  apply bool_decide_eq_true.
  destruct (store !! StringStore.key_of s) as [s0|] eqn:E; cbn.
  - rewrite E. eauto.
  - rewrite lookup_insert_eq. eauto.
Qed.

Lemma lookup_add_kept s store id s0 :
  store !! id = Some s0 -> (StringStore.add s store).2 !! id = Some s0.
Proof.
  intros H. unfold StringStore.add.
  destruct (decide (s = EmptyString)); [exact H|].
  destruct (store !! StringStore.key_of s) as [s1|] eqn:E; cbn; [exact H|].
  rewrite lookup_insert_ne; [exact H|]. intros <-. congruence.
Qed.

Lemma contains_add_kept c s store :
  StringStore.contains c store = true ->
  StringStore.contains c (StringStore.add s store).2 = true.
Proof.
  unfold StringStore.contains.
  destruct (decide (c = EmptyString)); [reflexivity|].
  rewrite !bool_decide_eq_true. intros [s0 H].
  exists s0. now apply lookup_add_kept.
Qed.

Lemma materialize_contains r w :
  StringStore.contains (md_cui r) (vocab_strings (materialize r w).1) = true.
Proof.
  destruct (materialize r w) as [w' res] eqn:E. cbn.
  destruct (materialize_frame _ _ _ _ E) as (_ & -> & _).
  apply contains_add_same.
Qed.

Lemma for_each_contains_kept c l w :
  StringStore.contains c (vocab_strings w) = true ->
  StringStore.contains c (vocab_strings (for_each l materialize w).1) = true.
Proof.
  intros H.
  apply (for_each_invariant
           (fun w => StringStore.contains c (vocab_strings w) = true)
           l w _ (for_each l materialize w).2);
    [|apply surjective_pairing|exact H].
  intros r w1 w2 res1 E H1.
  destruct (materialize_frame _ _ _ _ E) as (_ & -> & _).
  now apply contains_add_kept.
Qed.

Lemma reached_contains l w r :
  r ∈ reached l w ->
  StringStore.contains (md_cui r)
    (vocab_strings (for_each l materialize w).1) = true.
Proof.
  revert w. induction l as [|x l IH]; intros w; cbn.
  - intros H. inversion H.
  - unfold bind. pose proof (materialize_contains x w) as Hx.
    destruct (materialize x w) as [w1 [[]|e]] eqn:E; cbn in Hx.
    + intros H. apply elem_of_cons in H as [->|H].
      * now apply for_each_contains_kept.
      * now apply IH.
    + intros H. apply list_elem_of_singleton in H as ->. exact Hx.
Qed.

Lemma reached_all l w :
  is_Ok (for_each l materialize w).2 = true -> reached l w = l.
Proof.
  revert w. induction l as [|x l IH]; intros w; cbn; [reflexivity|].
  unfold bind. destruct (materialize x w) as [w1 [[]|e]] eqn:E; cbn.
  - intros H. now rewrite IH.
  - discriminate.
Qed.

Lemma call_world self w :
  (__call__ self w).1 = (for_each (records self w) materialize w).1.
Proof.
  rewrite call_eq.
  now destruct (for_each (records self w) materialize w) as [w1 [[]|e]].
Qed.

Lemma call_is_Ok self w :
  is_Ok (__call__ self w).2 = is_Ok (for_each (records self w) materialize w).2.
Proof.
  rewrite call_eq.
  now destruct (for_each (records self w) materialize w) as [w1 [[]|e]].
Qed.

(** C10: the code of a record is interned as the first thing done with
    the record, before its span is looked up, so it is in the registry
    however the processing of the record ends; and after [__call__] the
    registry contains the code of every record the loop got to, which is
    every record of the batch when the call returns. *)
Theorem C10_reached_codes_interned self w :
  (forall r w1,
     StringStore.contains (md_cui r) (vocab_strings (materialize r w1).1)
       = true) /\
  (forall r, r ∈ reached (records self w) w ->
     StringStore.contains (md_cui r) (vocab_strings (__call__ self w).1)
       = true) /\
  (is_Ok (__call__ self w).2 = true ->
   reached (records self w) w = records self w).
Proof.
  split; [exact materialize_contains|]. split.
  - intros r Hr. rewrite call_world. now apply reached_contains.
  - rewrite call_is_Ok. apply reached_all.
Qed.

Lemma C10_reached_codes_interned_witness :
  Example.diabetes ∈
    reached (records three_groups_component Example.world0) Example.world0 /\
  StringStore.contains (md_cui Example.diabetes)
    (vocab_strings (__call__ three_groups_component Example.world0).1)
    = true.
Proof.
  assert (H : Example.diabetes ∈
    reached (records three_groups_component Example.world0) Example.world0).
  { vm_compute. apply elem_of_cons. right. apply elem_of_cons. right.
    apply elem_of_cons. left. reflexivity. }
  split; [exact H|].
  exact (proj1 (proj2 (C10_reached_codes_interned three_groups_component
                         Example.world0)) Example.diabetes H).
Defined.

(** ** Offsets and token boundaries *)

Lemma tokens_after_weaken pos pos' toks :
  pos' <= pos -> tokens_after pos toks -> tokens_after pos' toks.
Proof.
  destruct toks; cbn; [auto|].
  intros H (H1 & H2 & H3). repeat split; auto; lia.
Qed.

Lemma tokens_after_lookup pos toks (i : nat) t :
  tokens_after pos toks -> toks !! i = Some t -> pos <= tok_idx t.
Proof.
  revert pos i. induction toks as [|t0 toks IH]; intros pos i; [easy|].
  cbn. intros (H1 & H2 & H3). destruct i as [|i]; cbn.
  - intros [= <-]. exact H1.
  - intros H. specialize (IH _ _ H3 H). unfold tok_end in IH.
    destruct (tok_spacy t0); lia.
Qed.

Lemma tokens_after_len pos toks (i : nat) t :
  tokens_after pos toks -> toks !! i = Some t -> 0 < tok_len t.
Proof.
  revert pos i. induction toks as [|t0 toks IH]; intros pos i; [easy|].
  cbn. intros (H1 & H2 & H3). destruct i as [|i]; cbn.
  - now intros [= <-].
  - intros H. exact (IH _ _ H3 H).
Qed.

Lemma token_by_char_found pos toks (i : nat) t c :
  tokens_after pos toks -> toks !! i = Some t ->
  tok_idx t <= c < tok_end t + (if tok_spacy t then 1 else 0) ->
  token_by_char toks c = Some i.
Proof.
  revert pos i. induction toks as [|t0 toks IH]; intros pos i; [easy|].
  cbn. intros (H1 & H2 & H3). destruct i as [|i]; cbn.
  - intros [= <-] [Hc1 Hc2].
    apply Z.leb_le in Hc1. apply Z.ltb_lt in Hc2. now rewrite Hc1, Hc2.
  - intros Hi Hc. pose proof (tokens_after_lookup _ _ _ _ H3 Hi) as Hle.
    assert (Hlt : (c <? tok_end t0 + (if tok_spacy t0 then 1 else 0)) = false)
      by (apply Z.ltb_ge; lia).
    rewrite Hlt, andb_false_r. now rewrite (IH _ _ H3 Hi Hc).
Qed.

Lemma tokens_after_order pos toks (i j : nat) t_i t_j :
  tokens_after pos toks -> toks !! i = Some t_i -> toks !! j = Some t_j ->
  (j < i)%nat -> tok_end t_j <= tok_idx t_i.
Proof.
  revert pos i j. induction toks as [|t0 toks IH]; intros pos i j; [easy|].
  cbn. intros (H1 & H2 & H3) Hi Hj Hlt.
  destruct i as [|i]; [lia|]. cbn in Hi. destruct j as [|j]; cbn in Hj.
  - injection Hj as <-. pose proof (tokens_after_lookup _ _ _ _ H3 Hi).
    destruct (tok_spacy t0); lia.
  - apply (IH _ i j H3 Hi Hj). lia.
Qed.

Lemma char_span_aligned d a b lab (i j : nat) t_i t_j :
  tokens_ordered d ->
  tokens d !! i = Some t_i -> tok_idx t_i = a ->
  tokens d !! j = Some t_j -> tok_end t_j = b ->
  a < b < 2 ^ 31 ->
  char_span d a b lab = Ok (Some (mkSpan i (S j) lab)) /\ (i <= j)%nat.
Proof.
  intros Hord Hi Ha Hj Hb [Hab Hint].
  assert (Hij : (i <= j)%nat).
  { destruct (le_lt_dec i j) as [|Hlt]; [assumption|].
    pose proof (tokens_after_order _ _ _ _ _ _ Hord Hi Hj Hlt). lia. }
  split; [|exact Hij].
  pose proof (tokens_after_len _ _ _ _ Hord Hi) as Hli.
  pose proof (tokens_after_len _ _ _ _ Hord Hj) as Hlj.
  pose proof (tokens_after_lookup _ _ _ _ Hord Hi) as Hpos.
  assert (Hc : c_int a && c_int b = true).
  { unfold c_int. apply andb_true_iff.
    split; apply andb_true_iff; split;
      try (apply Z.leb_le; lia); apply Z.ltb_lt; lia. }
  unfold char_span. rewrite Hc. cbn [negb].
  rewrite (token_by_char_found 0 (tokens d) i t_i a Hord Hi);
    [|unfold tok_end; destruct (tok_spacy t_i); lia].
  rewrite Hi. rewrite <- Ha at 1. rewrite Z.eqb_refl. cbn [negb].
  rewrite (token_by_char_found 0 (tokens d) j t_j (b - 1) Hord Hj);
    [|unfold tok_end in *; destruct (tok_spacy t_j); lia].
  rewrite Hj. rewrite <- Hb at 1. rewrite Z.eqb_refl. cbn [negb].
  unfold Span_new.
  assert (H1 : (i <=? S j)%nat = true) by (apply Nat.leb_le; lia).
  assert (H2 : (S j <=? length (tokens d))%nat = true).
  { apply Nat.leb_le. apply lookup_lt_Some in Hj. lia. }
  now rewrite H1, H2.
Qed.

Lemma maps_back_tokens d d' sp a b :
  tokens d' = tokens d -> maps_back d sp a b -> maps_back d' sp a b.
Proof.
  intros H. unfold maps_back, end_char, start_char, text_len.
  now rewrite H.
Qed.

Lemma span_of_maps_back d r sp :
  span_of d r = Ok (Some sp) -> (sp_start sp < sp_end sp)%nat ->
  maps_back d sp (md_start r) (md_end r).
Proof.
  intros Hsp Hne. unfold span_of in Hsp. apply char_span_inv in Hsp.
  destruct Hsp as (tf & tl & H1 & H2 & H3 & H4 & H5 & _ & _).
  split; [exact Hne|]. split; [exists tf, tl; auto|].
  unfold start_char, end_char. rewrite H1, H4.
  destruct (decide (sp_start sp = sp_end sp)); [lia|auto].
Qed.

(** C6: when a call gets to a record whose offsets are token boundaries
    of the document, [start] before [end], the span that [__call__]
    builds for it maps back to exactly the requested characters: it is
    not empty, its first token starts at [start] and its last token
    ends at [end].  That span, with the id of the record's code as its
    label, is what the call hands to [doc.ents]: it is refused and
    printed, or it is committed; and when it has a label and shares no
    token with an entity, it is an entity of the document when the call
    ends, and maps back to the same characters there. *)
Theorem C6_span_maps_back self w pre r post w1 :
  extensions_registered w ->
  Doc_wf (doc w) ->
  tokens_ordered (doc w) ->
  records self w = pre ++ r :: post ->
  for_each pre materialize w = (w1, Ok tt) ->
  aligned (doc w) (md_start r) (md_end r) ->
  md_start r < md_end r < 2 ^ 31 ->
  exists sp w2,
    span_of (doc w1) r = Ok (Some sp) /\
    sp_label sp = label_of r /\
    maps_back (doc w1) sp (md_start r) (md_end r) /\
    materialize r w1 = (w2, Ok tt) /\
    ((exists j,
        first_shared (ents (doc w1)) sp j /\
        ents (doc w2) = ents (doc w1) /\
        stdout w2 =
          stdout w1 ++
          [mkLine (ValueError_E1010 j) sp (sp_start sp) (sp_end sp)]) \/
     (ents (doc w2) = decode_ents (ents (doc w1) ++ [sp]) /\
      stdout w2 = stdout w1)) /\
    (sp_label sp <> 0 ->
     (forall x, x ∈ ents (doc w1) -> tokens_disjoint x sp) ->
     sp ∈ ents (doc (__call__ self w).1) /\
     maps_back (doc (__call__ self w).1) sp (md_start r) (md_end r)).
Proof.
  intros Hext Hwf Hord Hrec Hpre (i & j & ti & tj & Hi & Ha & Hj & Hb) Hab.
  pose proof (for_each_registered _ _ _ _ Hpre Hext) as Hext1.
  pose proof (for_each_wf _ _ _ _ Hpre Hwf) as Hwf1.
  pose proof (for_each_tokens _ _ _ _ Hpre) as Htok1.
  destruct (char_span_aligned (doc w) _ _ (label_of r) i j ti tj
              Hord Hi Ha Hj Hb Hab) as [Hsp Hij].
  set (sp := mkSpan i (S j) (label_of r)) in *.
  assert (Hsp1 : span_of (doc w1) r = Ok (Some sp)).
  { rewrite (span_of_tokens (doc w) (doc w1) r Htok1). exact Hsp. }
  assert (Hne : (sp_start sp < sp_end sp)%nat) by (cbn; lia).
  pose proof (span_of_maps_back _ _ _ Hsp1 Hne) as Hback.
  assert (Hcall : forall w2, materialize r w1 = (w2, Ok tt) ->
    __call__ self w =
    match for_each post materialize w2 with
    | (w', Ok _) => (w', Ok (doc w'))
    | (w', Raise e) => (w', Raise e)
    end).
  { intros w2 E. rewrite call_eq, Hrec, for_each_app, Hpre. cbn.
    unfold bind. now rewrite E. }
  destruct (materialize_outcome r w1 sp Hext1 Hwf1 Hsp1)
    as [(k & sp0 & Hl & H0 & Hk0 & Hk & Hfirst & E)|[Hacc E]].
  - eexists sp, _. split; [exact Hsp1|]. split; [reflexivity|].
    split; [exact Hback|]. split; [exact E|].
    split; [left; exists k; split; [exact Hfirst|split; reflexivity]|].
    intros _ Hd. exfalso. exact (Hd sp0 H0 k Hk0 Hk).
  - eexists sp, _. split; [exact Hsp1|]. split; [reflexivity|].
    split; [exact Hback|]. split; [exact E|].
    split; [right; split; reflexivity|].
    intros Hl _.
    assert (Htok : tokens (doc (__call__ self w).1) = tokens (doc w1)).
    { rewrite call_world, Htok1.
      apply (for_each_tokens (records self w) w _
               (for_each (records self w) materialize w).2).
      apply surjective_pairing. }
    split; [|exact (maps_back_tokens _ _ _ _ _ Htok Hback)].
    rewrite (Hcall _ E).
    match goal with
    | |- context [for_each post materialize ?w0] =>
        destruct (for_each post materialize w0) as [w' res] eqn:Epost;
        assert (Hin : sp ∈ ents (doc w0));
        [|assert (Hwf2 : Doc_wf (doc w0))]
    end.
    + cbn. apply elem_of_decode_ents. split.
      * apply elem_of_app. right. apply list_elem_of_singleton. reflexivity.
      * unfold is_entity. apply andb_true_iff. split.
        -- apply Nat.ltb_lt. exact Hne.
        -- apply negb_true_iff. apply Z.eqb_neq. exact Hl.
    + exact (proj1 (materialize_wf _ _ _ _ E Hwf1)).
    + assert (sp ∈ ents (doc w')).
      { eapply for_each_ents_kept; [exact Hwf2|exact Epost|exact Hin]. }
      now destruct res as [[]|e].
Qed.

Lemma example_tokens_ordered : tokens_ordered Example.doc0.
Proof. unfold tokens_ordered. cbn. unfold tok_end. cbn. lia. Qed.

Lemma C6_span_maps_back_witness :
  extensions_registered Example.world0 /\
  Doc_wf (doc Example.world0) /\
  tokens_ordered (doc Example.world0) /\
  records two_groups_component Example.world0 =
    [Example.diabetes_mellitus] ++ Example.patient :: [] /\
  for_each [Example.diabetes_mellitus] materialize Example.world0 =
    (after_first_record, Ok tt) /\
  aligned (doc Example.world0) (md_start Example.patient)
    (md_end Example.patient) /\
  md_start Example.patient < md_end Example.patient < 2 ^ 31 /\
  exists sp w2,
    span_of (doc after_first_record) Example.patient = Ok (Some sp) /\
    sp_label sp = label_of Example.patient /\
    maps_back (doc after_first_record) sp (md_start Example.patient)
      (md_end Example.patient) /\
    materialize Example.patient after_first_record = (w2, Ok tt) /\
    ((exists j,
        first_shared (ents (doc after_first_record)) sp j /\
        ents (doc w2) = ents (doc after_first_record) /\
        stdout w2 =
          stdout after_first_record ++
          [mkLine (ValueError_E1010 j) sp (sp_start sp) (sp_end sp)]) \/
     (ents (doc w2) = decode_ents (ents (doc after_first_record) ++ [sp]) /\
      stdout w2 = stdout after_first_record)) /\
    (sp_label sp <> 0 ->
     (forall x, x ∈ ents (doc after_first_record) -> tokens_disjoint x sp) ->
     sp ∈ ents (doc (__call__ two_groups_component Example.world0).1) /\
     maps_back (doc (__call__ two_groups_component Example.world0).1) sp
       (md_start Example.patient) (md_end Example.patient)).
Proof.
  assert (H1 : records two_groups_component Example.world0 =
               [Example.diabetes_mellitus] ++ Example.patient :: [])
    by reflexivity.
  assert (H2 : for_each [Example.diabetes_mellitus] materialize Example.world0
               = (after_first_record, Ok tt)) by (vm_compute; reflexivity).
  assert (Ha : aligned (doc Example.world0) (md_start Example.patient)
                 (md_end Example.patient)).
  { exists 0%nat, 0%nat, (mkToken 0 7 true), (mkToken 0 7 true).
    repeat split. }
  assert (Hlt : md_start Example.patient < md_end Example.patient < 2 ^ 31)
    by (cbn; lia).
  split; [exact world0_registered|]. split; [exact world0_wf|].
  split; [exact example_tokens_ordered|].
  split; [exact H1|]. split; [exact H2|]. split; [exact Ha|].
  split; [exact Hlt|].
  exact (C6_span_maps_back two_groups_component Example.world0
           [Example.diabetes_mellitus] Example.patient []
           after_first_record world0_registered world0_wf
           example_tokens_ordered H1 H2 Ha Hlt).
Defined.

(** ** Metadata of a committed span *)

(** C7, at a group with two concepts for the characters of "diabetes
    mellitus": the entity on the document is the span of the first
    record and its label is the id of the first record's code, yet its
    [similarity] and [semtypes] read as those of the second record,
    whose span was refused.  Both records write their metadata to
    [doc.user_data] under the same key, the characters of the span,
    before the commit is attempted. *)
Theorem C7_metadata_of_refused_duplicate :
  span_of (doc Example.world0) Example.diabetes_mellitus
    = Ok (Some span_diabetes_mellitus) /\
  ents (doc (__call__ all_matches_component Example.world0).1)
    = [span_diabetes_mellitus] /\
  sp_label span_diabetes_mellitus
    = StringStore.key_of (md_cui Example.diabetes_mellitus) /\
  underscore_getattr (__call__ all_matches_component Example.world0).1
    span_diabetes_mellitus "similarity"
    = Some (PyFloat (md_similarity Example.diabetes_mellitus')) /\
  underscore_getattr (__call__ all_matches_component Example.world0).1
    span_diabetes_mellitus "semtypes"
    = Some (PySet (md_semtypes Example.diabetes_mellitus')) /\
  md_similarity Example.diabetes_mellitus
    <> md_similarity Example.diabetes_mellitus' /\
  md_semtypes Example.diabetes_mellitus
    <> md_semtypes Example.diabetes_mellitus'.
Proof.
  split; [vm_compute; reflexivity|]. split; [vm_compute; reflexivity|].
  split; [reflexivity|]. split; [vm_compute; reflexivity|].
  split; [vm_compute; reflexivity|]. split; [discriminate|].
  intros H.
  assert (Hin : "T047"%string ∈ md_semtypes Example.diabetes_mellitus)
    by (cbn; set_solver).
  rewrite H in Hin. cbn in Hin. apply elem_of_singleton in Hin. discriminate.
Qed.

(** ** Construction *)

(** C9: in a process where neither extension is registered yet,
    [__init__] succeeds, once the engine is built, and registers
    [similarity] and [semtypes]; from then on, as long as the
    registration stands, every further [__init__] raises: the engine's
    own error, or the [ValueError] of registering [similarity] a second
    time without [force].  The failed call changes nothing, so the next
    one fails as well. *)
Theorem C9_construction_not_repeatable QuickUMLS fp bm isx w q :
  QuickUMLS fp = Ok q ->
  span_extensions w !! "similarity"%string = None ->
  span_extensions w !! "semtypes"%string = None ->
  exists w',
    __init__ QuickUMLS fp bm isx w = (w', Ok (mkSpacyQuickUMLS q bm isx)) /\
    extensions_registered w' /\
    forall QuickUMLS2 fp2 bm2 isx2 w2,
      span_extensions w2 = span_extensions w' ->
      exists e,
        __init__ QuickUMLS2 fp2 bm2 isx2 w2 = (w2, Raise e) /\
        (QuickUMLS2 fp2 = Raise e \/ e = ValueError_E090 "similarity").
Proof.
  intros Hq H1 H2.
  exists (set_span_extensions (insert "semtypes"%string (PyFloat (-1)))
            (set_span_extensions (insert "similarity"%string (PyFloat (-1)))
               w)).
  split; [|split].
  - unfold __init__, bind, Span_set_extension. rewrite Hq, H1. cbn.
    rewrite lookup_insert_ne by discriminate. now rewrite H2.
  - split; cbn.
    + rewrite lookup_insert_ne by discriminate.
      rewrite lookup_insert_eq. eauto.
    + rewrite lookup_insert_eq. eauto.
  - intros Q2 fp2 bm2 isx2 w2 Hw2.
    unfold __init__, bind, Span_set_extension.
    destruct (Q2 fp2) as [q2|e] eqn:E.
    + rewrite Hw2. cbn. rewrite lookup_insert_ne by discriminate.
      rewrite lookup_insert_eq. eauto.
    + eauto.
Qed.

Lemma C9_construction_not_repeatable_witness :
  build_engine "umls_fr" = Ok (Example.engine []) /\
  span_extensions fresh_process !! "similarity"%string = None /\
  span_extensions fresh_process !! "semtypes"%string = None /\
  exists w',
    __init__ build_engine "umls_fr" true false fresh_process
      = (w', Ok (mkSpacyQuickUMLS (Example.engine []) true false)) /\
    extensions_registered w' /\
    forall QuickUMLS2 fp2 bm2 isx2 w2,
      span_extensions w2 = span_extensions w' ->
      exists e,
        __init__ QuickUMLS2 fp2 bm2 isx2 w2 = (w2, Raise e) /\
        (QuickUMLS2 fp2 = Raise e \/ e = ValueError_E090 "similarity").
Proof.
  split; [reflexivity|]. split; [reflexivity|]. split; [reflexivity|].
  exact (C9_construction_not_repeatable build_engine "umls_fr" true false
           fresh_process (Example.engine []) eq_refl eq_refl eq_refl).
Defined.

(** ** Ids of concept codes *)

(** The hashes that spaCy's documentation shows for some strings. *)
Example hash_string_coffee : hash_string "coffee" = 3197928453018144401.
Proof. vm_compute. reflexivity. Qed.

Example hash_string_apple : hash_string "apple" = 8566208034543834098.
Proof. vm_compute. reflexivity. Qed.

Example hash_string_HelloWorld :
  hash_string "HelloWorld" = 15578876784678163569.
Proof. vm_compute. reflexivity. Qed.

Lemma word64_mul64 a b : word64 (Murmur.mul64 a b).
Proof.
  unfold word64, Murmur.mul64, Murmur.wrap64. apply Z.mod_pos_bound. lia.
Qed.

Lemma lt_pow2_log2 a n :
  0 <= n -> 0 <= a -> (a < 2 ^ n <-> a = 0 \/ Z.log2 a < n).
Proof.
  intros Hn Ha. destruct (Z.eq_dec a 0) as [->|Hne].
  - split; [auto|]. intros _. apply Z.pow_pos_nonneg; lia.
  - rewrite <- Z.log2_lt_pow2 by lia. split; [auto|].
    intros [?|?]; [lia|auto].
Qed.

Lemma word64_lxor a b : word64 a -> word64 b -> word64 (Z.lxor a b).
Proof.
  unfold word64. intros [Ha1 Ha2] [Hb1 Hb2].
  assert (H0 : 0 <= Z.lxor a b) by (apply Z.lxor_nonneg; lia).
  split; [exact H0|]. apply lt_pow2_log2; [lia|exact H0|].
  destruct (Z.eq_dec (Z.lxor a b) 0) as [|Hne]; [now left|right].
  pose proof (Z.log2_lxor a b Ha1 Hb1) as Hl.
  apply lt_pow2_log2 in Ha2; [|lia|lia].
  apply lt_pow2_log2 in Hb2; [|lia|lia].
  destruct Ha2 as [->|Ha2]; destruct Hb2 as [->|Hb2].
  - now rewrite Z.lxor_0_l in Hne.
  - now rewrite Z.lxor_0_l.
  - now rewrite Z.lxor_0_r.
  - lia.
Qed.

Lemma word64_shiftr a n : 0 <= n -> word64 a -> word64 (Z.shiftr a n).
Proof.
  unfold word64. intros Hn [H1 H2]. rewrite Z.shiftr_div_pow2 by lia.
  split.
  - apply Z.div_pos; [lia|]. apply Z.pow_pos_nonneg; lia.
  - apply Z.le_lt_trans with a; [|lia].
    apply Z.div_le_upper_bound; [apply Z.pow_pos_nonneg; lia|].
    assert (0 < 2 ^ n) by (apply Z.pow_pos_nonneg; lia). nia.
Qed.

Lemma xorshift_involutive x : word64 x -> xorshift (xorshift x) = x.
Proof.
  intros [H1 H2]. unfold xorshift, Murmur.r.
  rewrite Z.shiftr_lxor, Z.shiftr_shiftr by lia.
  assert (E : Z.shiftr x (47 + 47) = 0).
  { rewrite Z.shiftr_div_pow2 by lia. apply Z.div_small.
    split; [lia|]. apply Z.lt_le_trans with (2 ^ 64); [lia|].
    apply Z.pow_le_mono_r; lia. }
  rewrite E, Z.lxor_0_r, Z.lxor_assoc, Z.lxor_nilpotent, Z.lxor_0_r.
  reflexivity.
Qed.

Lemma xorshift_inj a b :
  word64 a -> word64 b -> xorshift a = xorshift b -> a = b.
Proof.
  intros Ha Hb E.
  rewrite <- (xorshift_involutive a Ha), <- (xorshift_involutive b Hb).
  now rewrite E.
Qed.

Lemma mul64_m_inj a b :
  word64 a -> word64 b ->
  Murmur.mul64 a Murmur.m = Murmur.mul64 b Murmur.m -> a = b.
Proof.
  unfold word64, Murmur.mul64, Murmur.wrap64. intros Ha Hb E.
  assert (H : forall x, 0 <= x < 2 ^ 64 ->
            ((x * Murmur.m) mod 2 ^ 64 * m_inv) mod 2 ^ 64 = x).
  { intros x Hx. rewrite Z.mul_mod_idemp_l by lia.
    rewrite <- Z.mul_assoc, <- Z.mul_mod_idemp_r by lia.
    replace ((Murmur.m * m_inv) mod 2 ^ 64) with 1
      by (vm_compute; reflexivity).
    rewrite Z.mul_1_r. now apply Z.mod_small. }
  rewrite <- (H a Ha), <- (H b Hb). now rewrite E.
Qed.

Lemma lxor_inj_r h a b : Z.lxor h a = Z.lxor h b -> a = b.
Proof.
  intros E.
  assert (Z.lxor h (Z.lxor h a) = Z.lxor h (Z.lxor h b)) by now rewrite E.
  now rewrite <- !Z.lxor_assoc, Z.lxor_nilpotent, !Z.lxor_0_l in H.
Qed.

Lemma lor_shiftl_split b x :
  byte b -> 0 <= x ->
  Z.shiftr (Z.lor b (Z.shiftl x 8)) 8 = x /\
  Z.land (Z.lor b (Z.shiftl x 8)) (Z.ones 8) = b.
Proof.
  intros [Hb1 Hb2] Hx. split.
  - rewrite Z.shiftr_lor, Z.shiftr_shiftl_l by lia.
    rewrite Z.sub_diag, Z.shiftl_0_r, Z.shiftr_div_pow2 by lia.
    rewrite Z.div_small by (change (2 ^ 8) with 256; lia).
    apply Z.lor_0_l.
  - rewrite Z.land_lor_distr_l, !Z.land_ones by lia.
    rewrite Z.shiftl_mul_pow2 by lia. rewrite Z.mod_mul by lia.
    rewrite Z.lor_0_r. apply Z.mod_small. change (2 ^ 8) with 256. lia.
Qed.

Lemma le_word_nonneg bs : Forall byte bs -> 0 <= Murmur.le_word bs.
Proof.
  induction 1 as [|b bs [Hb _] _ IH]; cbn; [lia|].
  apply Z.lor_nonneg. split; [lia|]. apply Z.shiftl_nonneg. exact IH.
Qed.

Lemma le_word_cons_eq b bs :
  byte b -> Forall byte bs ->
  Murmur.le_word (b :: bs) = b + 256 * Murmur.le_word bs.
Proof.
  intros Hb Hbs. cbn.
  destruct (lor_shiftl_split b (Murmur.le_word bs) Hb (le_word_nonneg _ Hbs))
    as [H1 H2].
  rewrite Z.shiftr_div_pow2 in H1 by lia.
  rewrite Z.land_ones in H2 by lia. change (2 ^ 8) with 256 in *.
  pose proof (Z.div_mod (Z.lor b (Z.shiftl (Murmur.le_word bs) 8)) 256).
  lia.
Qed.

Lemma le_word_bound bs :
  Forall byte bs -> 0 <= Murmur.le_word bs < 256 ^ Z.of_nat (length bs).
Proof.
  induction 1 as [|b bs Hb Hbs IH]; [cbn; lia|].
  rewrite le_word_cons_eq by assumption.
  replace (Z.of_nat (length (b :: bs))) with (Z.succ (Z.of_nat (length bs)))
    by (cbn [length]; lia).
  rewrite Z.pow_succ_r by lia. unfold byte in Hb. lia.
Qed.

Lemma le_word_inj bs bs' :
  Forall byte bs -> Forall byte bs' -> length bs = length bs' ->
  Murmur.le_word bs = Murmur.le_word bs' -> bs = bs'.
Proof.
  intros H. revert bs'. induction H as [|b bs Hb Hbs IH];
    intros bs' H' Hlen E; destruct bs' as [|b' bs']; try discriminate;
    [reflexivity|].
  apply Forall_cons in H' as [Hb' Hbs'].
  rewrite !le_word_cons_eq in E by assumption.
  pose proof (le_word_nonneg _ Hbs). pose proof (le_word_nonneg _ Hbs').
  unfold byte in *.
  assert (b = b' /\ Murmur.le_word bs = Murmur.le_word bs') as [-> E'] by lia.
  f_equal. apply IH; auto.
Qed.

Lemma utf8_bytes_byte s : Forall byte (utf8_bytes s).
Proof.
  induction s as [|a s IH]; cbn; constructor; [|exact IH].
  pose proof (Ascii.N_ascii_bounded a). unfold byte. lia.
Qed.

Lemma utf8_bytes_length s : length (utf8_bytes s) = String.length s.
Proof. induction s as [|a s IH]; cbn; [reflexivity|now rewrite IH]. Qed.

Lemma utf8_bytes_inj s s' : utf8_bytes s = utf8_bytes s' -> s = s'.
Proof.
  revert s'. induction s as [|a s IH]; intros [|a' s']; cbn; try discriminate;
    [reflexivity|].
  intros [= E1 E2]. apply N2Z.inj in E1.
  assert (a = a').
  { rewrite <- (Ascii.ascii_N_embedding a), <- (Ascii.ascii_N_embedding a').
    now rewrite E1. }
  subst. f_equal. now apply IH.
Qed.

Lemma finalize_eq h :
  Murmur.finalize h = xorshift (Murmur.mul64 (xorshift h) Murmur.m).
Proof. reflexivity. Qed.

Lemma mix_eq k :
  Murmur.mix k = Murmur.mul64 (xorshift (Murmur.mul64 k Murmur.m)) Murmur.m.
Proof. reflexivity. Qed.

Lemma word64_xorshift x : word64 x -> word64 (xorshift x).
Proof.
  intros H. apply word64_lxor; [exact H|]. apply word64_shiftr; [|exact H].
  unfold Murmur.r. lia.
Qed.

Lemma finalize_inj a b :
  word64 a -> word64 b -> Murmur.finalize a = Murmur.finalize b -> a = b.
Proof.
  intros Ha Hb. rewrite !finalize_eq. intros E.
  apply xorshift_inj in E; [|apply word64_mul64..].
  apply mul64_m_inj in E; [|now apply word64_xorshift..].
  now apply xorshift_inj.
Qed.

Lemma mix_inj a b :
  word64 a -> word64 b -> Murmur.mix a = Murmur.mix b -> a = b.
Proof.
  intros Ha Hb. rewrite !mix_eq. intros E.
  apply mul64_m_inj in E; [|apply word64_xorshift, word64_mul64..].
  apply xorshift_inj in E; [|apply word64_mul64..].
  now apply mul64_m_inj.
Qed.

Lemma MurmurHash64A_block bs :
  length bs = 8%nat ->
  Murmur.MurmurHash64A bs 1 =
  Murmur.finalize
    (Murmur.mul64 (Z.lxor seed8 (Murmur.mix (Murmur.le_word bs))) Murmur.m).
Proof.
  intros H.
  destruct bs as [|b0 [|b1 [|b2 [|b3 [|b4 [|b5 [|b6 [|b7 [|b8 bs]]]]]]]]];
    try discriminate.
  unfold Murmur.MurmurHash64A. cbn [length Murmur.blocks Murmur.tail_bytes].
  reflexivity.
Qed.

Lemma word64_mix k : word64 (Murmur.mix k).
Proof. rewrite mix_eq. apply word64_mul64. Qed.

Lemma word64_seed8 : word64 seed8.
Proof. unfold word64. vm_compute. split; [discriminate|reflexivity]. Qed.

Lemma hash_string_inj_8 s s' :
  String.length s = 8%nat -> String.length s' = 8%nat ->
  hash_string s = hash_string s' -> s = s'.
Proof.
  intros Hs Hs'. unfold hash_string.
  rewrite !MurmurHash64A_block by (now rewrite utf8_bytes_length).
  intros E.
  apply finalize_inj in E; [|apply word64_mul64..].
  apply mul64_m_inj in E;
    [|apply word64_lxor; [apply word64_seed8|apply word64_mix]..].
  apply lxor_inj_r in E.
  assert (Hw : forall t, String.length t = 8%nat ->
                         word64 (Murmur.le_word (utf8_bytes t))).
  { intros t Ht. pose proof (le_word_bound _ (utf8_bytes_byte t)) as H.
    rewrite utf8_bytes_length, Ht in H. exact H. }
  apply mix_inj in E; [|now apply Hw..].
  apply le_word_inj in E; [now apply utf8_bytes_inj|apply utf8_bytes_byte..|].
  now rewrite !utf8_bytes_length, Hs, Hs'.
Qed.

(** The id of a non-empty code is its hash. *)
Lemma key_of_inj_8 c c' :
  String.length c = 8%nat -> String.length c' = 8%nat ->
  StringStore.key_of c = StringStore.key_of c' -> c = c'.
Proof.
  intros Hc Hc'. unfold StringStore.key_of.
  destruct (decide (c = EmptyString)) as [->|_]; [discriminate|].
  destruct (decide (c' = EmptyString)) as [->|_]; [discriminate|].
  now apply hash_string_inj_8.
Qed.

Lemma is_cui_length c : is_cui c = true -> String.length c = 8%nat.
Proof.
  unfold is_cui. intros H.
  apply andb_true_iff in H as [H _]. apply andb_true_iff in H as [_ H].
  now apply Nat.eqb_eq in H.
Qed.

(** C8, as the code has it: the id of a code is a function of its
    characters alone, not of the registry.  So interning the same code
    again gives the same id, in whatever state the registry is; the
    entry of an id, once made, never changes; a code of the CUI format,
    the letter C followed by seven digits, whose id is not yet in the
    registry is entered under that id; and two distinct codes of the CUI
    format get distinct ids. *)
Theorem C8_intern_ids :
  (forall c w, (intern c (intern c w).1).2 = (intern c w).2) /\
  (forall c w1 w2, (intern c w1).2 = (intern c w2).2) /\
  (forall c w id s,
     vocab_strings w !! id = Some s ->
     vocab_strings (intern c w).1 !! id = Some s) /\
  (forall c w id,
     is_cui c = true -> (intern c w).2 = Ok id ->
     vocab_strings w !! id = None ->
     vocab_strings (intern c w).1 !! id = Some c) /\
  (forall c1 c2 w1 w2,
     is_cui c1 = true -> is_cui c2 = true -> c1 <> c2 ->
     (intern c1 w1).2 <> (intern c2 w2).2).
Proof.
  split; [|split; [|split; [|split]]].
  - intros c w. now rewrite !intern_run.
  - intros c w1 w2. now rewrite !intern_run.
  - intros c w id s H. rewrite intern_run. cbn. now apply lookup_add_kept.
  - intros c w id Hc. rewrite intern_run. cbn. intros [= <-] Hnone.
    unfold StringStore.add.
    destruct (decide (c = EmptyString)) as [->|_]; [discriminate|].
    rewrite Hnone. cbn. apply lookup_insert_eq.
  - intros c1 c2 w1 w2 H1 H2 Hne. rewrite !intern_run. cbn. intros [= E].
    apply Hne. apply key_of_inj_8; [now apply is_cui_length..|exact E].
Qed.

Lemma C8_intern_ids_witness :
  is_cui "C0011849" = true /\
  is_cui "C0011860" = true /\
  "C0011849"%string <> "C0011860"%string /\
  (intern "C0011849" Example.world0).2 = Ok 1285539204403585052 /\
  vocab_strings Example.world0 !! 1285539204403585052 = None /\
  vocab_strings (intern "C0011849" Example.world0).1
    !! 1285539204403585052 = Some "C0011849"%string /\
  (intern "C0011849" Example.world0).2
    <> (intern "C0011860" (intern "C0011849" Example.world0).1).2.
Proof.
  split; [reflexivity|]. split; [reflexivity|].
  assert (Hne : "C0011849"%string <> "C0011860"%string) by discriminate.
  assert (Hid : (intern "C0011849" Example.world0).2
                = Ok 1285539204403585052) by (vm_compute; reflexivity).
  split; [exact Hne|]. split; [exact Hid|]. split; [reflexivity|].
  split.
  - exact (proj1 (proj2 (proj2 (proj2 C8_intern_ids)))
             "C0011849"%string Example.world0 1285539204403585052
             eq_refl Hid eq_refl).
  - exact (proj2 (proj2 (proj2 (proj2 C8_intern_ids)))
             "C0011849"%string "C0011860"%string Example.world0
             (intern "C0011849" Example.world0).1 eq_refl eq_refl Hne).
Defined.

(** C8, distinct codes: [code_a] and [code_b] differ, and interning one
    after the other gives the same id twice.  The registry keeps the
    first of them under that id. *)
Lemma C8_distinct_codes_same_id :
  code_a <> code_b /\
  (intern code_a Example.world0).2 = Ok 8583762237522251849 /\
  (intern code_b (intern code_a Example.world0).1).2
    = Ok 8583762237522251849 /\
  StringStore.getitem_int 8583762237522251849
    (vocab_strings (intern code_b (intern code_a Example.world0).1).1)
    = Some code_a.
Proof.
  split; [discriminate|]. repeat split; vm_compute; reflexivity.
Qed.

(** ** What a call leaves alone *)

(** X1: a call never changes the tokens of the document or the
    registered extensions, however it ends. *)
Theorem call_keeps_tokens_and_extensions self w :
  tokens (doc (__call__ self w).1) = tokens (doc w) /\
  span_extensions (__call__ self w).1 = span_extensions w.
Proof.
  apply (call_invariant
           (fun w1 => tokens (doc w1) = tokens (doc w) /\
                      span_extensions w1 = span_extensions w)
           self w _ (__call__ self w).2);
    [|apply surjective_pairing|auto].
  intros r w1 w2 res1 E [H1 H2].
  destruct (materialize_frame _ _ _ _ E) as (H3 & _ & H4 & _).
  split; congruence.
Qed.

(** X2: no entity of the document is lost by a call, however the call
    ends: every entity that was on the document is still on it. *)
Theorem call_keeps_entities self w x :
  Doc_wf (doc w) ->
  x ∈ ents (doc w) ->
  x ∈ ents (doc (__call__ self w).1).
Proof.
  intros Hwf Hx. rewrite call_world.
  apply (for_each_ents_kept (records self w) w _
           (for_each (records self w) materialize w).2 Hwf);
    [apply surjective_pairing|exact Hx].
Qed.

(** X11: [__call__] reads the engine's answer as one sequence of
    records.  Two components whose engines give the same records in the
    same order, whatever their flags and however the records are split
    into groups, do the same to the same world. *)
Theorem call_depends_on_record_sequence self1 self2 w :
  concat (quickumls self1 (doc w) (best_match self1) (ignore_syntax self1)) =
  concat (quickumls self2 (doc w) (best_match self2) (ignore_syntax self2)) ->
  __call__ self1 w = __call__ self2 w.
Proof.
  intros H. rewrite !call_eq. unfold records. now rewrite H.
Qed.

(** ** When a call returns *)

Lemma for_each_Ok_iff l w :
  extensions_registered w -> Doc_wf (doc w) ->
  is_Ok (for_each l materialize w).2 = true <->
  forall r, r ∈ l -> exists sp, span_of (doc w) r = Ok (Some sp).
Proof.
  revert w. induction l as [|r l IH]; intros w Hext Hwf; cbn.
  - split; [|reflexivity]. intros _ r H. inversion H.
  - unfold bind. destruct (materialize r w) as [w1 [[]|e]] eqn:E.
    + pose proof (materialize_registered _ _ _ _ E Hext) as Hext1.
      destruct (materialize_wf _ _ _ _ E Hwf) as [Hwf1 _].
      pose proof (materialize_tokens _ _ _ _ E) as Htok.
      rewrite (IH w1 Hext1 Hwf1). split.
      * intros H x Hx. apply elem_of_cons in Hx as [->|Hx].
        -- destruct (materialize_Ok _ _ _ Hwf E) as (sp & Hsp & _). eauto.
        -- destruct (H x Hx) as [sp Hsp]. exists sp.
           now rewrite <- (span_of_tokens _ _ x Htok).
      * intros H x Hx. destruct (H x) as [sp Hsp]; [now right|].
        exists sp. now rewrite (span_of_tokens _ _ x Htok).
    + cbn. split; [discriminate|]. intros H. exfalso.
      destruct (H r) as [sp Hsp]; [left|].
      destruct (materialize_aligned_Ok r w sp Hext Hwf Hsp) as [w2 E2].
      congruence.
Qed.

(** X3: with the extensions registered, a call returns exactly when
    [char_span] gives a span for every record of the batch; otherwise
    it raises. *)
Theorem call_returns_iff_all_aligned self w :
  extensions_registered w -> Doc_wf (doc w) ->
  is_Ok (__call__ self w).2 = true <->
  forall r, r ∈ records self w ->
    exists sp, span_of (doc w) r = Ok (Some sp).
Proof.
  intros Hext Hwf. rewrite call_is_Ok. now apply for_each_Ok_iff.
Qed.

(** ** Where new registry entries and new entities come from *)

Lemma add_lookup_inv c store id s :
  (StringStore.add c store).2 !! id = Some s ->
  store !! id = Some s \/ (s = c /\ id = StringStore.key_of c).
Proof.
  unfold StringStore.add.
  destruct (decide (c = EmptyString)); [now left|].
  destruct (store !! StringStore.key_of c) as [s1|] eqn:E; cbn; [now left|].
  destruct (decide (id = StringStore.key_of c)) as [->|Hne].
  - rewrite lookup_insert_eq. intros [= <-]. now right.
  - rewrite lookup_insert_ne by congruence. now left.
Qed.

Lemma for_each_vocab_inv l w id s :
  vocab_strings (for_each l materialize w).1 !! id = Some s ->
  vocab_strings w !! id = Some s \/
  exists r, r ∈ reached l w /\ md_cui r = s /\ StringStore.key_of s = id.
Proof.
  revert w. induction l as [|r l IH]; intros w; cbn; [now left|].
  unfold bind. destruct (materialize r w) as [w1 res] eqn:E.
  assert (Hstep : forall s0, vocab_strings w1 !! id = Some s0 ->
            vocab_strings w !! id = Some s0 \/
            (md_cui r = s0 /\ StringStore.key_of s0 = id)).
  { intros s0 H. destruct (materialize_frame _ _ _ _ E) as (_ & Hv & _).
    rewrite Hv in H. cbn in H. apply add_lookup_inv in H as [H|[-> ->]]; auto. }
  destruct res as [[]|e]; cbn.
  - intros H. apply IH in H as [H|(x & Hx & H1 & H2)].
    + apply Hstep in H as [H|[H1 H2]]; [now left|right].
      exists r. split; [left|auto].
    + right. exists x. split; [now right|auto].
  - intros H. apply Hstep in H as [H|[H1 H2]]; [now left|right].
    exists r. split; [apply list_elem_of_singleton; reflexivity|auto].
Qed.

(** X6: an entry of the registry after a call was there before the
    call, or it is the code of a record the loop got to, stored under
    the id of that code.  Nothing else is ever added. *)
Theorem call_registry_entries self w id s :
  vocab_strings (__call__ self w).1 !! id = Some s ->
  vocab_strings w !! id = Some s \/
  exists r, r ∈ reached (records self w) w /\
            md_cui r = s /\ StringStore.key_of s = id.
Proof. rewrite call_world. apply for_each_vocab_inv. Qed.

Lemma for_each_ents_inv l w w' res :
  Doc_wf (doc w) ->
  for_each l materialize w = (w', res) ->
  forall x, x ∈ ents (doc w') ->
    x ∈ ents (doc w) \/ exists r, r ∈ l /\ span_of (doc w) r = Ok (Some x).
Proof.
  revert w. induction l as [|r l IH]; intros w Hwf; cbn.
  - intros [= <- <-] x Hx. now left.
  - unfold bind. destruct (materialize r w) as [w1 res1] eqn:E.
    destruct (materialize_wf _ _ _ _ E Hwf) as [Hwf1 _].
    pose proof (materialize_tokens _ _ _ _ E) as Htok.
    assert (Hstep : forall x, x ∈ ents (doc w1) ->
              x ∈ ents (doc w) \/ span_of (doc w) r = Ok (Some x)).
    { intros x Hx.
      destruct (materialize_ents _ _ _ _ E (Doc_wf_in_range _ Hwf))
        as [He|(sp & s & Hsp & _ & He & _)].
      - left. now rewrite <- He.
      - rewrite He in Hx. apply elem_of_decode_ents in Hx as [Hx _].
        apply elem_of_app in Hx as [Hx|Hx]; [now left|].
        apply list_elem_of_singleton in Hx as ->. now right. }
    destruct res1 as [[]|e].
    + intros H x Hx. destruct (IH _ Hwf1 H x Hx) as [H1|(r' & Hr' & Hsp)].
      * destruct (Hstep x H1) as [H2|H2]; [now left|right].
        exists r. split; [left|exact H2].
      * right. exists r'. split; [now right|].
        now rewrite <- (span_of_tokens _ _ r' Htok).
    + intros [= <- <-] x Hx.
      destruct (Hstep x Hx) as [H2|H2]; [now left|right].
      exists r. split; [left|exact H2].
Qed.

(** X5: an entity of the document after a call was there before the
    call, or it is the span of a record of the batch: its label is the
    id of the record's code, it starts at the record's [start] and ends
    at the record's [end]. *)
Theorem call_new_entities self w x :
  Doc_wf (doc w) ->
  x ∈ ents (doc (__call__ self w).1) ->
  x ∈ ents (doc w) \/
  exists r, r ∈ records self w /\
    span_of (doc w) r = Ok (Some x) /\
    sp_label x = StringStore.key_of (md_cui r) /\
    start_char (doc (__call__ self w).1) x = md_start r /\
    end_char (doc (__call__ self w).1) x = md_end r.
Proof.
  intros Hwf Hx.
  assert (Hwf' : Doc_wf (doc (__call__ self w).1)).
  { eapply call_wf; [exact Hwf|apply surjective_pairing]. }
  assert (Htok : tokens (doc (__call__ self w).1) = tokens (doc w)).
  { rewrite call_world.
    apply (for_each_invariant (fun w1 => tokens (doc w1) = tokens (doc w))
             (records self w) w _
             (for_each (records self w) materialize w).2);
      [|apply surjective_pairing|reflexivity].
    intros r w1 w2 res1 E H. rewrite <- H.
    exact (materialize_tokens _ _ _ _ E). }
  assert (Hent : (sp_start x < sp_end x)%nat).
  { destruct Hwf' as [Hall _]. rewrite Forall_forall in Hall.
    destruct (Hall x Hx) as [Hent _]. unfold is_entity in Hent.
    apply andb_true_iff in Hent as [Hent _]. now apply Nat.ltb_lt in Hent. }
  rewrite call_world in Hx.
  destruct (for_each_ents_inv (records self w) w _
              (for_each (records self w) materialize w).2 Hwf
              (surjective_pairing _) x Hx) as [H|(r & Hr & Hsp)];
    [now left|right].
  exists r. split; [exact Hr|]. split; [exact Hsp|].
  pose proof Hsp as Hinv. unfold span_of in Hinv.
  apply char_span_inv in Hinv.
  destruct Hinv as (tf & tl & H1 & H2 & _ & H4 & H5 & H6 & _).
  split; [exact H6|]. unfold start_char, end_char. rewrite Htok, H1, H4.
  destruct (decide (sp_start x = sp_end x)); [lia|auto].
Qed.

(** ** Every record is accounted for *)

Lemma length_insert_by_start sp l :
  length (insert_by_start sp l) = S (length l).
Proof.
  induction l as [|a l IH]; cbn; [reflexivity|].
  destruct (sp_start sp <=? sp_start a)%nat; cbn; [reflexivity|].
  now rewrite IH.
Qed.

Lemma length_decode_ents l :
  Forall (fun sp => is_entity sp = true) l ->
  length (decode_ents l) = length l.
Proof.
  induction 1 as [|a l Ha _ IH]; [reflexivity|].
  rewrite decode_ents_cons, Ha, length_insert_by_start, IH. reflexivity.
Qed.

Lemma entity_records_tokens d d' l :
  tokens d' = tokens d -> entity_records d l -> entity_records d' l.
Proof.
  intros Htok H r sp Hr Hsp. rewrite (span_of_tokens _ _ r Htok) in Hsp.
  eauto.
Qed.

Lemma for_each_accounts l w w' :
  Doc_wf (doc w) -> entity_records (doc w) l ->
  for_each l materialize w = (w', Ok tt) ->
  (length (ents (doc w')) + length (stdout w')
   = length (ents (doc w)) + length (stdout w) + length l)%nat.
Proof.
  revert w. induction l as [|r l IH]; intros w Hwf Hrec; cbn.
  - intros [= <-]. lia.
  - unfold bind. destruct (materialize r w) as [w1 [[]|e]] eqn:E;
      [|discriminate].
    intros H.
    destruct (materialize_wf _ _ _ _ E Hwf) as [Hwf1 _].
    pose proof (materialize_tokens _ _ _ _ E) as Htok.
    assert (Hrec1 : entity_records (doc w1) l).
    { apply (entity_records_tokens (doc w)); [exact Htok|].
      intros x sp Hx. apply Hrec. now right. }
    specialize (IH w1 Hwf1 Hrec1 H). rewrite IH.
    destruct (materialize_Ok _ _ _ Hwf E)
      as (sp & Hsp & _ & [(j & sp0 & _ & _ & _ & _ & _ & ->)|[_ ->]]).
    + cbn. rewrite length_app. cbn. lia.
    + cbn. rewrite length_decode_ents; [rewrite length_app; cbn; lia|].
      apply Forall_app. split.
      * destruct Hwf as [Hall _]. eapply Forall_impl; [exact Hall|].
        now intros x [? _].
      * constructor; [|constructor]. apply (Hrec r sp); [left|exact Hsp].
Qed.

(** X7: when a call returns, every record of the batch has become an
    entity or a printed line: the entities and the printed lines have
    together grown by the number of records.  (The spans of the records
    are taken to be entities: not empty, label not 0.) *)
Theorem call_accounts_for_every_record self w w' d :
  Doc_wf (doc w) -> entity_records (doc w) (records self w) ->
  __call__ self w = (w', Ok d) ->
  (length (ents (doc w')) + length (stdout w')
   = length (ents (doc w)) + length (stdout w)
     + length (records self w))%nat.
Proof.
  intros Hwf Hrec. rewrite call_eq.
  destruct (for_each (records self w) materialize w) as [w1 [[]|e]] eqn:E;
    [|discriminate].
  intros [= <- _]. now apply for_each_accounts.
Qed.

(** ** A second call on the annotated document *)




(** ** The stored metadata *)

Lemma underscore_key_tokens d d' sp name :
  tokens d' = tokens d -> underscore_key d' sp name = underscore_key d sp name.
Proof.
  intros H. unfold underscore_key, end_char, start_char, text_len.
  rewrite H. reflexivity.
Qed.

Lemma materialize_user_data r w w' res k :
  materialize r w = (w', res) ->
  user_data (doc w') !! k = user_data (doc w) !! k \/
  exists sp name,
    span_of (doc w) r = Ok (Some sp) /\ metadata_name name /\
    k = underscore_key (doc w) sp name.
Proof.
  rewrite materialize_eq. cbv zeta.
  destruct (span_of (doc w) r) as [[sp|]|e] eqn:Hsp;
    [|intros [= <- <-]; now left..].
  destruct (decide (k = underscore_key (doc w) sp "similarity")) as [->|N1].
  { intros _. right. exists sp, "similarity"%string. split; [reflexivity|].
    split; [now left|reflexivity]. }
  destruct (decide (k = underscore_key (doc w) sp "semtypes")) as [->|N2].
  { intros _. right. exists sp, "semtypes"%string. split; [reflexivity|].
    split; [now right|reflexivity]. }
  unfold bind at 1. unfold underscore_setattr at 1. cbv beta.
  change (span_extensions (interned (md_cui r) w)) with (span_extensions w).
  destruct (span_extensions w !! "similarity"%string);
    [|intros [= <- <-]; now left].
  unfold bind at 1. unfold underscore_setattr at 1. cbv beta.
  cbn [span_extensions set_doc].
  change (span_extensions (interned (md_cui r) w)) with (span_extensions w).
  destruct (span_extensions w !! "semtypes"%string).
  - match goal with
    | |- try_except_ValueError _ _ ?w2 = _ -> _ =>
        change (try_except_ValueError
                  (old <~ Doc_get_ents ;; Doc_set_ents (old ++ [sp]))
                  (fun e => print_conflict e sp) w2)
          with (commit sp w2);
        pose proof (commit_frame sp w2) as H
    end.
    intros E. rewrite E in H. cbn in H.
    destruct H as (_ & _ & _ & H & _). left. rewrite H.
    rewrite lookup_insert_ne by (intros X; apply N2; now rewrite <- X).
    rewrite lookup_insert_ne by (intros X; apply N1; now rewrite <- X).
    reflexivity.
  - intros [= <- <-]. left. cbn.
    rewrite lookup_insert_ne by (intros X; apply N1; now rewrite <- X).
    reflexivity.
Qed.

Lemma for_each_user_data l w w' res k :
  for_each l materialize w = (w', res) ->
  user_data (doc w') !! k = user_data (doc w) !! k \/
  exists r sp name,
    r ∈ l /\ span_of (doc w) r = Ok (Some sp) /\ metadata_name name /\
    k = underscore_key (doc w) sp name.
Proof.
  revert w. induction l as [|r l IH]; intros w; cbn.
  - intros [= <- <-]. now left.
  - unfold bind. destruct (materialize r w) as [w1 res1] eqn:E.
    pose proof (materialize_tokens _ _ _ _ E) as Htok.
    pose proof (materialize_user_data _ _ _ _ k E) as Hstep.
    assert (Hhere : user_data (doc w1) !! k = user_data (doc w) !! k \/
              exists r0 sp name,
                r0 ∈ r :: l /\ span_of (doc w) r0 = Ok (Some sp) /\
                metadata_name name /\ k = underscore_key (doc w) sp name).
    { destruct Hstep as [H|(sp & name & H1 & H2 & H3)]; [now left|right].
      exists r, sp, name. split; [left|auto]. }
    destruct res1 as [[]|e].
    + intros H. destruct (IH _ H) as [H1|(r0 & sp & name & Hr & Hsp & Hn & Hk)].
      * destruct Hhere as [H2|H2]; [left; congruence|now right].
      * right. exists r0, sp, name. split; [now right|].
        split; [now rewrite <- (span_of_tokens _ _ r0 Htok)|].
        split; [exact Hn|].
        now rewrite <- (underscore_key_tokens _ _ sp name Htok).
    + intros [= <- <-]. exact Hhere.
Qed.

(** X9: a call changes [doc.user_data] only under the keys of its own
    records: the names [similarity] and [semtypes] at the characters of
    a span that [char_span] gave for a record of the batch.  Every other
    key, present or absent, is as it was. *)
Theorem call_user_data_changes self w k :
  user_data (doc (__call__ self w).1) !! k = user_data (doc w) !! k \/
  exists r sp name,
    r ∈ records self w /\ span_of (doc w) r = Ok (Some sp) /\
    metadata_name name /\ k = underscore_key (doc w) sp name.
Proof.
  rewrite call_world.
  apply (for_each_user_data (records self w) w _
           (for_each (records self w) materialize w).2).
  apply surjective_pairing.
Qed.

Lemma materialize_reads_back r w sp :
  extensions_registered w ->
  span_of (doc w) r = Ok (Some sp) ->
  user_data (doc (materialize r w).1)
    !! underscore_key (doc w) sp "similarity"
    = Some (PyFloat (md_similarity r)) /\
  user_data (doc (materialize r w).1)
    !! underscore_key (doc w) sp "semtypes"
    = Some (PySet (md_semtypes r)).
Proof.
  intros Hext Hsp. rewrite (materialize_aligned _ _ _ Hsp Hext).
  match goal with
  | |- context [commit sp ?w2] =>
      pose proof (commit_frame sp w2) as H; cbv zeta in H;
      destruct H as (_ & _ & _ & H & _)
  end.
  rewrite H. cbn. split.
  - rewrite lookup_insert_ne by (unfold underscore_key; congruence).
    apply lookup_insert_eq.
  - apply lookup_insert_eq.
Qed.

Lemma nonempty_span_key d r sp name :
  span_of d r = Ok (Some sp) -> (sp_start sp < sp_end sp)%nat ->
  underscore_key d sp name = (name, md_start r, md_end r).
Proof.
  intros Hsp Hne. unfold span_of in Hsp. apply char_span_inv in Hsp.
  destruct Hsp as (tf & tl & H1 & H2 & _ & H4 & H5 & _ & _).
  unfold underscore_key, end_char, start_char. rewrite H1, H4.
  destruct (decide (sp_start sp = sp_end sp)); [lia|].
  rewrite H2, H5. reflexivity.
Qed.

Lemma span_key_offsets d r sp name :
  span_of d r = Ok (Some sp) ->
  underscore_key d sp name = (name, md_start r, md_end r) \/
  underscore_key d sp name = (name, md_start r, md_start r).
Proof.
  intros Hsp. destruct (decide (sp_start sp < sp_end sp)%nat) as [Hne|He].
  - left. now apply nonempty_span_key.
  - right. unfold span_of in Hsp. apply char_span_inv in Hsp.
    destruct Hsp as (tf & tl & H1 & H2 & _ & H4 & H5 & _ & Hin).
    unfold in_range in Hin.
    unfold underscore_key, end_char, start_char. rewrite H1.
    destruct (decide (sp_start sp = sp_end sp)); [|lia].
    rewrite H2. reflexivity.
Qed.

(** X10: when a call returns, a span of the batch reads the
    [similarity] and [semtypes] of the last record with its character
    offsets; in particular those of its own record when no later record
    of the batch has the same offsets. *)
Theorem call_metadata_of_last_record self w w' d pre r post sp :
  extensions_registered w ->
  __call__ self w = (w', Ok d) ->
  records self w = pre ++ r :: post ->
  span_of (doc w) r = Ok (Some sp) ->
  (sp_start sp < sp_end sp)%nat ->
  md_start r < md_end r ->
  (forall r', r' ∈ post ->
     (md_start r', md_end r') <> (md_start r, md_end r)) ->
  underscore_getattr w' sp "similarity" = Some (PyFloat (md_similarity r)) /\
  underscore_getattr w' sp "semtypes" = Some (PySet (md_semtypes r)).
Proof.
  intros Hext Hcall Hrec Hsp Hne Hlt Hpost.
  rewrite call_eq, Hrec, for_each_app in Hcall.
  destruct (for_each pre materialize w) as [w1 [[]|e1]] eqn:E1;
    [|discriminate].
  cbn in Hcall. unfold bind in Hcall.
  destruct (materialize r w1) as [w2 [[]|e2]] eqn:E2; [|discriminate].
  destruct (for_each post materialize w2) as [w3 [[]|e3]] eqn:E3;
    [|discriminate].
  injection Hcall as <- _.
  assert (Htok1 : tokens (doc w1) = tokens (doc w)).
  { apply (for_each_invariant (fun w0 => tokens (doc w0) = tokens (doc w))
             pre w w1 (Ok tt)); [|exact E1|reflexivity].
    intros x wa wb res1 E H. rewrite <- H.
    exact (materialize_tokens _ _ _ _ E). }
  pose proof (materialize_tokens _ _ _ _ E2) as Htok2.
  assert (Htok3 : tokens (doc w3) = tokens (doc w2)).
  { apply (for_each_invariant (fun w0 => tokens (doc w0) = tokens (doc w2))
             post w2 w3 (Ok tt)); [|exact E3|reflexivity].
    intros x wa wb res1 E H. rewrite <- H.
    exact (materialize_tokens _ _ _ _ E). }
  pose proof (for_each_registered _ _ _ _ E1 Hext) as Hext1.
  pose proof (materialize_registered _ _ _ _ E2 Hext1) as Hext2.
  pose proof (for_each_registered _ _ _ _ E3 Hext2) as Hext3.
  assert (Hsp1 : span_of (doc w1) r = Ok (Some sp))
    by now rewrite (span_of_tokens _ _ r Htok1).
  destruct (materialize_reads_back r w1 sp Hext1 Hsp1) as [R1 R2].
  rewrite E2 in R1, R2. cbn [fst] in R1, R2.
  assert (Hkeep : forall name, metadata_name name ->
            user_data (doc w3) !! underscore_key (doc w3) sp name
            = user_data (doc w2) !! underscore_key (doc w1) sp name).
  { intros name Hname.
    assert (Hk : underscore_key (doc w3) sp name
                 = underscore_key (doc w1) sp name)
      by (apply underscore_key_tokens; congruence).
    rewrite Hk.
    destruct (for_each_user_data post w2 w3 (Ok tt)
                (underscore_key (doc w1) sp name) E3)
      as [H|(r' & sp' & name' & Hr' & Hsp' & _ & Hkey)]; [exact H|].
    exfalso.
    rewrite (nonempty_span_key (doc w1) r sp name Hsp1 Hne) in Hkey.
    destruct (span_key_offsets (doc w2) r' sp' name' Hsp') as [K|K];
      rewrite K in Hkey; injection Hkey as _ Ha Hb.
    - apply (Hpost r' Hr'). congruence.
    - lia. }
  destruct Hext3 as [[v1 X1] [v2 X2]].
  unfold underscore_getattr. rewrite X1, X2.
  rewrite (Hkeep "similarity"%string) by now left.
  rewrite (Hkeep "semtypes"%string) by now right.
  now rewrite R1, R2.
Qed.

(** ** Construction that fails *)

Lemma init_needs_fresh_similarity QuickUMLS fp bm isx w :
  is_Some (span_extensions w !! "similarity"%string) ->
  is_Ok (__init__ QuickUMLS fp bm isx w).2 = false.
Proof.
  intros [v H]. unfold __init__, bind, Span_set_extension.
  destruct (QuickUMLS fp); [|reflexivity]. now rewrite H.
Qed.

(** X12: when [semtypes] is already registered and [similarity] is
    not, [__init__] raises the [ValueError] for [semtypes] after having
    registered [similarity]; so it has failed and no later [__init__]
    can succeed. *)
Theorem init_failure_leaves_similarity QuickUMLS fp bm isx w q :
  QuickUMLS fp = Ok q ->
  span_extensions w !! "similarity"%string = None ->
  is_Some (span_extensions w !! "semtypes"%string) ->
  exists w',
    __init__ QuickUMLS fp bm isx w = (w', Raise (ValueError_E090 "semtypes")) /\
    is_Some (span_extensions w' !! "similarity"%string) /\
    forall QuickUMLS2 fp2 bm2 isx2,
      is_Ok (__init__ QuickUMLS2 fp2 bm2 isx2 w').2 = false.
Proof.
  intros Hq H1 [v H2].
  exists (set_span_extensions (insert "similarity"%string (PyFloat (-1))) w).
  assert (H3 : is_Some
            (span_extensions
               (set_span_extensions
                  (insert "similarity"%string (PyFloat (-1))) w)
             !! "similarity"%string)).
  { cbn. rewrite lookup_insert_eq. eauto. }
  split; [|split; [exact H3|]].
  - unfold __init__, bind, Span_set_extension. rewrite Hq, H1. cbn.
    rewrite lookup_insert_ne by discriminate. now rewrite H2.
  - intros Q2 fp2 bm2 isx2. now apply init_needs_fresh_similarity.
Qed.

(** X13: the factory on a process where neither extension is
    registered.  If the engine's constructor raises, the error is the
    factory's and the process is as before.  If it returns an engine,
    the factory returns a component with that engine, built with
    [spacy_component = True] and the seven keyword arguments as given,
    and with the two flags as given, which [__call__] hands to the
    engine; both extensions are then registered, vocabulary and
    document are untouched, and no later call of the factory, whatever
    its name and configuration, succeeds. *)
Theorem create_quickumls_outcomes QuickUMLS name fp bm isx oc th sn mml acc
    vb ku w :
  span_extensions w !! "similarity"%string = None ->
  span_extensions w !! "semtypes"%string = None ->
  (forall e,
     QuickUMLS fp true (mkKwargs oc th sn mml acc vb ku) = Raise e ->
     create_quickumls QuickUMLS name fp bm isx oc th sn mml acc vb ku w
     = (w, Raise e)) /\
  (forall q,
     QuickUMLS fp true (mkKwargs oc th sn mml acc vb ku) = Ok q ->
     exists w',
       create_quickumls QuickUMLS name fp bm isx oc th sn mml acc vb ku w
       = (w', Ok (mkSpacyQuickUMLS q bm isx)) /\
       extensions_registered w' /\
       vocab_strings w' = vocab_strings w /\ doc w' = doc w /\
       (forall w1, records (mkSpacyQuickUMLS q bm isx) w1
                   = concat (q (doc w1) bm isx)) /\
       forall QuickUMLS2 name2 fp2 bm2 isx2 oc2 th2 sn2 mml2 acc2 vb2 ku2,
         is_Ok (create_quickumls QuickUMLS2 name2 fp2 bm2 isx2 oc2 th2 sn2
                  mml2 acc2 vb2 ku2 w').2 = false).
Proof.
  intros H1 H2. unfold create_quickumls. split.
  - intros e Hq. unfold __init__, bind. now rewrite Hq.
  - intros q Hq.
    exists (set_span_extensions (insert "semtypes"%string (PyFloat (-1)))
              (set_span_extensions
                 (insert "similarity"%string (PyFloat (-1))) w)).
    split; [|split; [|split; [|split; [|split]]]]; try reflexivity.
    + unfold __init__, bind, Span_set_extension. rewrite Hq, H1. cbn.
      rewrite lookup_insert_ne by discriminate. now rewrite H2.
    + split; cbn.
      * rewrite lookup_insert_ne by discriminate.
        rewrite lookup_insert_eq. eauto.
      * rewrite lookup_insert_eq. eauto.
    + intros. apply init_needs_fresh_similarity. cbn.
      rewrite lookup_insert_ne by discriminate.
      rewrite lookup_insert_eq. eauto.
Qed.

(** ** A misaligned record, in general *)

(** X4: the first record of the batch for which [char_span] gives
    [None] ends the call with the [AttributeError].  Its code has been
    interned; entities, stored metadata and printed lines are those the
    records before it left, and no record after it is processed. *)
Theorem call_aborts_at_first_misaligned self w pre r post w1 :
  records self w = pre ++ r :: post ->
  for_each pre materialize w = (w1, Ok tt) ->
  span_of (doc w1) r = Ok None ->
  (__call__ self w).2 = Raise (AttributeError_NoneType "_") /\
  doc (__call__ self w).1 = doc w1 /\
  stdout (__call__ self w).1 = stdout w1 /\
  vocab_strings (__call__ self w).1
    = (StringStore.add (md_cui r) (vocab_strings w1)).2 /\
  reached (records self w) w = pre ++ [r].
Proof.
  intros Hrec Hpre Hsp.
  rewrite (misaligned_record_aborts self w pre r post w1 Hrec Hpre Hsp).
  repeat split. rewrite Hrec. clear Hrec. revert w Hpre.
  induction pre as [|x pre IH]; intros w; cbn.
  - intros [= ->]. now rewrite (materialize_misaligned _ _ Hsp).
  - unfold bind. destruct (materialize x w) as [w2 [[]|e]]; [|discriminate].
    intros H. now rewrite (IH _ H).
Qed.

(** ** The properties on the example document *)

Lemma example_entity_records :
  entity_records (doc Example.world0)
    (records all_matches_component Example.world0).
Proof.
  intros r sp Hr Hsp. change (records all_matches_component Example.world0)
    with [Example.diabetes_mellitus; Example.diabetes_mellitus'] in Hr.
  apply elem_of_cons in Hr as [->|Hr];
    [|apply list_elem_of_singleton in Hr as ->];
    vm_compute in Hsp; injection Hsp as <-; vm_compute; reflexivity.
Qed.

Lemma call_keeps_entities_witness :
  Doc_wf (doc after_first_call) /\
  span_diabetes_mellitus ∈ ents (doc after_first_call) /\
  span_diabetes_mellitus
    ∈ ents (doc (__call__ patient_component after_first_call).1).
Proof.
  assert (H : span_diabetes_mellitus ∈ ents (doc after_first_call)).
  { vm_compute. apply elem_of_cons. left. reflexivity. }
  split; [exact after_first_call_wf|]. split; [exact H|].
  exact (call_keeps_entities patient_component after_first_call
           span_diabetes_mellitus after_first_call_wf H).
Defined.

Lemma call_returns_iff_all_aligned_witness :
  extensions_registered Example.world0 /\
  Doc_wf (doc Example.world0) /\
  (is_Ok (__call__ misaligned_component Example.world0).2 = true <->
   forall r, r ∈ records misaligned_component Example.world0 ->
     exists sp, span_of (doc Example.world0) r = Ok (Some sp)).
Proof.
  split; [exact world0_registered|]. split; [exact world0_wf|].
  exact (call_returns_iff_all_aligned misaligned_component Example.world0
           world0_registered world0_wf).
Defined.

Lemma call_aborts_at_first_misaligned_witness :
  records three_groups_component Example.world0 =
    [Example.diabetes_mellitus; Example.diabetes_mellitus';
     Example.diabetes] ++ Example.misaligned :: [Example.patient] /\
  for_each
    [Example.diabetes_mellitus; Example.diabetes_mellitus';
     Example.diabetes] materialize Example.world0
    = (before_misaligned, Ok tt) /\
  span_of (doc before_misaligned) Example.misaligned = Ok None /\
  (__call__ three_groups_component Example.world0).2
    = Raise (AttributeError_NoneType "_") /\
  doc (__call__ three_groups_component Example.world0).1
    = doc before_misaligned /\
  stdout (__call__ three_groups_component Example.world0).1
    = stdout before_misaligned /\
  vocab_strings (__call__ three_groups_component Example.world0).1
    = (StringStore.add (md_cui Example.misaligned)
         (vocab_strings before_misaligned)).2 /\
  reached (records three_groups_component Example.world0) Example.world0
    = [Example.diabetes_mellitus; Example.diabetes_mellitus';
       Example.diabetes] ++ [Example.misaligned].
Proof.
  assert (H1 : records three_groups_component Example.world0 =
    [Example.diabetes_mellitus; Example.diabetes_mellitus';
     Example.diabetes] ++ Example.misaligned :: [Example.patient])
    by reflexivity.
  assert (H2 : for_each
    [Example.diabetes_mellitus; Example.diabetes_mellitus';
     Example.diabetes] materialize Example.world0
    = (before_misaligned, Ok tt)) by (vm_compute; reflexivity).
  assert (H3 : span_of (doc before_misaligned) Example.misaligned = Ok None)
    by (vm_compute; reflexivity).
  split; [exact H1|]. split; [exact H2|]. split; [exact H3|].
  exact (call_aborts_at_first_misaligned three_groups_component
           Example.world0 _ Example.misaligned [Example.patient]
           before_misaligned H1 H2 H3).
Defined.

Lemma call_new_entities_witness :
  Doc_wf (doc Example.world0) /\
  span_diabetes_mellitus
    ∈ ents (doc (__call__ once_component Example.world0).1) /\
  (span_diabetes_mellitus ∈ ents (doc Example.world0) \/
   exists r, r ∈ records once_component Example.world0 /\
     span_of (doc Example.world0) r = Ok (Some span_diabetes_mellitus) /\
     sp_label span_diabetes_mellitus = StringStore.key_of (md_cui r) /\
     start_char (doc (__call__ once_component Example.world0).1)
       span_diabetes_mellitus = md_start r /\
     end_char (doc (__call__ once_component Example.world0).1)
       span_diabetes_mellitus = md_end r).
Proof.
  assert (H : span_diabetes_mellitus
                ∈ ents (doc (__call__ once_component Example.world0).1)).
  { vm_compute. apply elem_of_cons. left. reflexivity. }
  split; [exact world0_wf|]. split; [exact H|].
  exact (call_new_entities once_component Example.world0
           span_diabetes_mellitus world0_wf H).
Defined.

Lemma call_registry_entries_witness :
  vocab_strings (__call__ once_component Example.world0).1
    !! label_of Example.diabetes_mellitus = Some "C0011849"%string /\
  (vocab_strings Example.world0 !! label_of Example.diabetes_mellitus
     = Some "C0011849"%string \/
   exists r,
     r ∈ reached (records once_component Example.world0) Example.world0 /\
     md_cui r = "C0011849"%string /\
     StringStore.key_of "C0011849" = label_of Example.diabetes_mellitus).
Proof.
  assert (H : vocab_strings (__call__ once_component Example.world0).1
    !! label_of Example.diabetes_mellitus = Some "C0011849"%string)
    by (vm_compute; reflexivity).
  split; [exact H|].
  exact (call_registry_entries once_component Example.world0 _ _ H).
Defined.

Lemma call_accounts_for_every_record_witness :
  Doc_wf (doc Example.world0) /\
  entity_records (doc Example.world0)
    (records all_matches_component Example.world0) /\
  __call__ all_matches_component Example.world0 =
    ((__call__ all_matches_component Example.world0).1,
     Ok (doc (__call__ all_matches_component Example.world0).1)) /\
  (length (ents (doc (__call__ all_matches_component Example.world0).1))
   + length (stdout (__call__ all_matches_component Example.world0).1)
   = length (ents (doc Example.world0)) + length (stdout Example.world0)
     + length (records all_matches_component Example.world0))%nat.
Proof.
  assert (H : __call__ all_matches_component Example.world0 =
    ((__call__ all_matches_component Example.world0).1,
     Ok (doc (__call__ all_matches_component Example.world0).1)))
    by (vm_compute; reflexivity).
  split; [exact world0_wf|]. split; [exact example_entity_records|].
  split; [exact H|].
  exact (call_accounts_for_every_record all_matches_component
           Example.world0 _ _ world0_wf example_entity_records H).
Defined.


Lemma call_metadata_of_last_record_witness :
  extensions_registered Example.world0 /\
  __call__ two_groups_component Example.world0 =
    ((__call__ two_groups_component Example.world0).1,
     Ok (doc (__call__ two_groups_component Example.world0).1)) /\
  records two_groups_component Example.world0
    = [] ++ Example.diabetes_mellitus :: [Example.patient] /\
  span_of (doc Example.world0) Example.diabetes_mellitus
    = Ok (Some span_diabetes_mellitus) /\
  (sp_start span_diabetes_mellitus < sp_end span_diabetes_mellitus)%nat /\
  md_start Example.diabetes_mellitus < md_end Example.diabetes_mellitus /\
  (forall r', r' ∈ [Example.patient] ->
     (md_start r', md_end r')
     <> (md_start Example.diabetes_mellitus,
         md_end Example.diabetes_mellitus)) /\
  underscore_getattr (__call__ two_groups_component Example.world0).1
    span_diabetes_mellitus "similarity"
    = Some (PyFloat (md_similarity Example.diabetes_mellitus)) /\
  underscore_getattr (__call__ two_groups_component Example.world0).1
    span_diabetes_mellitus "semtypes"
    = Some (PySet (md_semtypes Example.diabetes_mellitus)).
Proof.
  assert (H1 : __call__ two_groups_component Example.world0 =
    ((__call__ two_groups_component Example.world0).1,
     Ok (doc (__call__ two_groups_component Example.world0).1)))
    by (vm_compute; reflexivity).
  assert (H2 : span_of (doc Example.world0) Example.diabetes_mellitus
               = Ok (Some span_diabetes_mellitus))
    by (vm_compute; reflexivity).
  assert (H3 : (sp_start span_diabetes_mellitus
                < sp_end span_diabetes_mellitus)%nat) by (cbn; lia).
  assert (H4 : md_start Example.diabetes_mellitus
               < md_end Example.diabetes_mellitus) by (cbn; lia).
  assert (H5 : forall r', r' ∈ [Example.patient] ->
     (md_start r', md_end r')
     <> (md_start Example.diabetes_mellitus,
         md_end Example.diabetes_mellitus)).
  { intros r' Hr. apply list_elem_of_singleton in Hr as ->. cbn.
    discriminate. }
  split; [exact world0_registered|]. split; [exact H1|].
  split; [reflexivity|]. split; [exact H2|]. split; [exact H3|].
  split; [exact H4|]. split; [exact H5|].
  exact (call_metadata_of_last_record two_groups_component Example.world0
           _ _ [] Example.diabetes_mellitus [Example.patient]
           span_diabetes_mellitus world0_registered H1 eq_refl H2 H3 H4 H5).
Defined.

Lemma call_depends_on_record_sequence_witness :
  concat (quickumls two_groups_component (doc Example.world0)
            (best_match two_groups_component)
            (ignore_syntax two_groups_component)) =
  concat (quickumls one_group_component (doc Example.world0)
            (best_match one_group_component)
            (ignore_syntax one_group_component)) /\
  __call__ two_groups_component Example.world0
    = __call__ one_group_component Example.world0.
Proof.
  split; [reflexivity|].
  exact (call_depends_on_record_sequence two_groups_component
           one_group_component Example.world0 eq_refl).
Defined.

Lemma init_failure_leaves_similarity_witness :
  build_engine "umls_fr" = Ok (Example.engine []) /\
  span_extensions semtypes_taken_process !! "similarity"%string = None /\
  is_Some (span_extensions semtypes_taken_process !! "semtypes"%string) /\
  exists w',
    __init__ build_engine "umls_fr" true false semtypes_taken_process
      = (w', Raise (ValueError_E090 "semtypes")) /\
    is_Some (span_extensions w' !! "similarity"%string) /\
    forall QuickUMLS2 fp2 bm2 isx2,
      is_Ok (__init__ QuickUMLS2 fp2 bm2 isx2 w').2 = false.
Proof.
  assert (H : is_Some
    (span_extensions semtypes_taken_process !! "semtypes"%string)).
  { eexists. vm_compute. reflexivity. }
  split; [reflexivity|]. split; [reflexivity|]. split; [exact H|].
  exact (init_failure_leaves_similarity build_engine "umls_fr" true false
           semtypes_taken_process (Example.engine []) eq_refl eq_refl H).
Defined.

Lemma create_quickumls_outcomes_witness :
  span_extensions fresh_process !! "similarity"%string = None /\
  span_extensions fresh_process !! "semtypes"%string = None /\
  build_engine_kw "umls_fr" true
    (mkKwargs "score" (9 # 10) "jaccard" 3 ∅ true false)
    = Ok (Example.engine []) /\
  exists w',
    create_quickumls build_engine_kw "quickumls" "umls_fr" true false
      "score" (9 # 10) "jaccard" 3 ∅ true false fresh_process
    = (w', Ok (mkSpacyQuickUMLS (Example.engine []) true false)) /\
    extensions_registered w' /\
    vocab_strings w' = vocab_strings fresh_process /\
    doc w' = doc fresh_process /\
    (forall w1, records (mkSpacyQuickUMLS (Example.engine []) true false) w1
                = concat (Example.engine [] (doc w1) true false)) /\
    forall QuickUMLS2 name2 fp2 bm2 isx2 oc2 th2 sn2 mml2 acc2 vb2 ku2,
      is_Ok (create_quickumls QuickUMLS2 name2 fp2 bm2 isx2 oc2 th2 sn2
               mml2 acc2 vb2 ku2 w').2 = false.
Proof.
  split; [reflexivity|]. split; [reflexivity|]. split; [reflexivity|].
  exact (proj2 (create_quickumls_outcomes build_engine_kw "quickumls"
                  "umls_fr" true false "score" (9 # 10) "jaccard" 3 ∅ true
                  false fresh_process eq_refl eq_refl)
           (Example.engine []) eq_refl).
Defined.
